(** * A shallow embedding of stalk (src/main.go and the diff package)

    The file models the watch loop of [main.go] ([watcher], the
    [resourceCache] and [diffObjects]) and the [diff] package
    ([Differ.preprocess], [Differ.PrintDiff], [diffTitle]).  The external
    libraries the code calls (sigs.k8s.io/yaml, encoding/json, difflib,
    cdiff, the JSONPath evaluator and maputil.RemovePath) are kept
    abstract: they are Section variables, so every theorem holds for
    every implementation of them. *)

From Stdlib Require Import String Ascii ZArith.
From stdpp Require Import base gmap strings list fin_maps pretty.

Local Open Scope string_scope.
Set Warnings "-register-all".

(* ------------------------------------------------------------------ *)
(** ** Documents and unstructured objects *)

(** A generic JSON/YAML value, as decoded into [interface{}]. *)
Inductive Doc :=
| DScalar (s : string)
| DSeq (xs : list Doc)
| DMap (kvs : list (string * Doc)).

(** An [unstructured.Unstructured]: the fields the code reads through its
    accessors, plus the managed-fields entry ([metadata.managedFields],
    [None] when the field is absent) and the rest of the content. *)
Record Obj := mkObj {
  kind : string;
  namespace : string;
  name : string;
  resourceVersion : string;
  generation : Z;
  managedFields : option (list Doc);
  content : Doc
}.

(** [obj.SetManagedFields(nil)] removes [metadata.managedFields]. *)
Definition SetManagedFields_nil (o : Obj) : Obj :=
  {| kind := kind o; namespace := namespace o; name := name o;
     resourceVersion := resourceVersion o; generation := generation o;
     managedFields := None; content := content o |}.

(** Go string literals. *)
Definition nl : string := String "010"%char EmptyString.

(** [strings.TrimSpace], on the ASCII white space characters. *)
Definition is_space (c : ascii) : bool :=
  match nat_of_ascii c with
  | 9 | 10 | 11 | 12 | 13 | 32 => true
  | _ => false
  end.

Fixpoint trim_left (s : string) : string :=
  match s with
  | EmptyString => EmptyString
  | String c s' => if is_space c then trim_left s' else s
  end.

Definition string_rev (s : string) : string :=
  string_of_list_ascii (rev (list_ascii_of_string s)).

Definition TrimSpace (s : string) : string :=
  string_rev (trim_left (string_rev (trim_left s))).

(* ------------------------------------------------------------------ *)
(** ** The resource cache of main.go (value level) *)

(** [resourceCache.objectKey]: always ["<namespace>/<name>"]. *)
Definition cache_objectKey (o : Obj) : string :=
  namespace o +:+ "/" +:+ name o.

(** [resourceCache]: [map[string]*unstructured.Unstructured].  Since [Get]
    and [Set] deep-copy, at the level of values the cache is a finite map
    from keys to objects (the pointer level is [Heap] below). *)
Abbreviation resourceCache := (gmap string Obj).

Definition cache_Get (rc : resourceCache) (o : Obj) : option Obj :=
  rc !! cache_objectKey o.

Definition cache_Set (rc : resourceCache) (o : Obj) : resourceCache :=
  <[cache_objectKey o := o]> rc.

Definition cache_Delete (rc : resourceCache) (o : Obj) : resourceCache :=
  delete (cache_objectKey o) rc.

(* ------------------------------------------------------------------ *)
(** ** Watch events and the watcher loop *)

(** [watch.EventType]. *)
Inductive EventType := Added | Modified | Deleted | Bookmark | Error.

(** [event.Object]: either an [*unstructured.Unstructured] or some other
    [runtime.Object] (for example a [*v1.Status] on an [Error] event). *)
Inductive EventObject :=
| Unstructured (o : Obj)
| OtherObject.

Record Event := mkEvent { ev_type : EventType; ev_object : EventObject }.

(** The display key computed in [watcher]: the name, prefixed by
    ["<namespace>/"] when the namespace is not empty. *)
Definition watcher_key (o : Obj) : string :=
  if String.eqb (namespace o) "" then name o
  else namespace o +:+ "/" +:+ name o.

(** One block printed by [watcher]: the printed string of each case is
    [print_block] below.  [BCreate] prints [yaml.Marshal(event.Object)],
    [BUpdate] prints [diffObjects(previousObject, metaObject)], [BDelete]
    only prints its header. *)
Inductive Block :=
| BCreate (key : string) (cur : Obj)
| BUpdate (key : string) (prev : option Obj) (cur : Obj)
| BDelete (key : string).

(** The previous side a block renders, if any. *)
Definition block_previous (b : Block) : option Obj :=
  match b with
  | BUpdate _ prev _ => prev
  | _ => None
  end.

(** One iteration of the [for event := range w.ResultChan()] loop. *)
Definition watcher_step (hideManagedFields : bool) (cache : resourceCache)
    (event : Event) : resourceCache * list Block :=
  match ev_object event with
  | OtherObject => (cache, [])
  | Unstructured o =>
      let metaObject := if hideManagedFields then SetManagedFields_nil o else o in
      let key := watcher_key metaObject in
      match ev_type event with
      | Added =>
          (cache_Set cache metaObject, [BCreate key metaObject])
      | Modified =>
          let previousObject := cache_Get cache metaObject in
          (cache_Set cache metaObject, [BUpdate key previousObject metaObject])
      | Deleted =>
          (cache_Delete cache metaObject, [BDelete key])
      | _ => (cache, [])
      end
  end.

(** The whole loop over the events of one watch, starting from
    [newResourceCache()]-like state [cache]. *)
Fixpoint watcher_loop (hideManagedFields : bool) (cache : resourceCache)
    (events : list Event) : resourceCache * list Block :=
  match events with
  | [] => (cache, [])
  | e :: es =>
      let '(cache1, out1) := watcher_step hideManagedFields cache e in
      let '(cache2, out2) := watcher_loop hideManagedFields cache1 es in
      (cache2, app out1 out2)
  end.

Definition watcher (hideManagedFields : bool) (events : list Event)
    : resourceCache * list Block :=
  watcher_loop hideManagedFields ∅ events.

(* ------------------------------------------------------------------ *)
(** ** What [watcher] prints *)

(** [difflib.UnifiedDiff]. *)
Record UnifiedDiff := mkUnifiedDiff {
  ud_A : list string;
  ud_B : list string;
  ud_FromFile : string;
  ud_ToFile : string;
  ud_Context : Z
}.

(** [strings.SplitAfter(s, "\n")]. *)
Fixpoint split_after_nl (s acc : string) : list string :=
  match s with
  | EmptyString => [acc]
  | String c s' =>
      if Ascii.eqb c "010"%char then (acc +:+ String c EmptyString) :: split_after_nl s' EmptyString
      else split_after_nl s' (acc +:+ String c EmptyString)
  end.

(** [difflib.SplitLines]: split after each newline, then add a newline to
    the last piece. *)
Definition SplitLines (s : string) : list string :=
  match rev (split_after_nl s EmptyString) with
  | [] => []
  | last :: rest => rev rest ++ [last +:+ nl]
  end.

Section Printing.

(** [yaml.Marshal] of a possibly nil object (the error is ignored). *)
Variable yaml_Marshal : option Obj -> string.
(** [difflib.GetUnifiedDiffString] (the error is ignored). *)
Variable GetUnifiedDiffString : UnifiedDiff -> string.

(** [diffObjects] of main.go. *)
Definition diffObjects_request (a b : option Obj) : UnifiedDiff :=
  {| ud_A := SplitLines (yaml_Marshal a);
     ud_B := SplitLines (yaml_Marshal b);
     ud_FromFile := "Previous";
     ud_ToFile := "Current";
     ud_Context := 3 |}.

Definition diffObjects (a b : option Obj) : string :=
  GetUnifiedDiffString (diffObjects_request a b).

(** The header line [fmt.Printf("--- ACTION --- %s ----...\n", key)]. *)
Definition header (action key : string) : string :=
  "--- " +:+ action +:+ " --- " +:+ key +:+ " "
  +:+ "---------------------------------------------" +:+ nl.

(** The [fmt.Printf] calls of each case of [watcher]. *)
Definition print_block (b : Block) : string :=
  match b with
  | BCreate key cur =>
      header "CREATE" key +:+ TrimSpace (yaml_Marshal (Some cur)) +:+ nl +:+ nl
  | BUpdate key prev cur =>
      header "UPDATE" key +:+ TrimSpace (diffObjects prev (Some cur)) +:+ nl +:+ nl
  | BDelete key =>
      header "DELETE" key
  end.

(** Everything [watcher] writes to standard output. *)
Definition watcher_output (hideManagedFields : bool) (events : list Event) : string :=
  foldr (fun b acc => print_block b +:+ acc) EmptyString
    (snd (watcher hideManagedFields events)).

End Printing.

(* ------------------------------------------------------------------ *)
(** ** The resource cache at the pointer level *)

(** [resourceCache] with Go's pointers made explicit: a heap of
    [unstructured.Unstructured] values and the [resources] map from keys to
    pointers.  [Get] and [Set] deep-copy into freshly allocated objects. *)
Module Heap.

Abbreviation loc := positive.

Record State := mkState {
  heap : gmap loc Obj;
  resources : gmap string loc
}.

(** Allocation of a new object. *)
Definition alloc (s : State) (o : Obj) : State * loc :=
  let l := fresh (dom (heap s)) in
  (mkState (<[l := o]> (heap s)) (resources s), l).

(** [p.DeepCopy()]; [None] stands for dereferencing an invalid pointer. *)
Definition DeepCopy (s : State) (p : loc) : option (State * loc) :=
  o ← heap s !! p; Some (alloc s o).

(** [rc.Get(obj)]. *)
Definition Get (s : State) (p : loc) : option (State * option loc) :=
  o ← heap s !! p;
  match resources s !! cache_objectKey o with
  | None => Some (s, None)
  | Some existing =>
      '(s', l') ← DeepCopy s existing; Some (s', Some l')
  end.

(** [rc.Set(obj)]. *)
Definition Set_ (s : State) (p : loc) : option State :=
  o ← heap s !! p;
  '(s', l') ← DeepCopy s p;
  Some (mkState (heap s') (<[cache_objectKey o := l']> (resources s'))).

(** [rc.Delete(obj)]. *)
Definition Delete (s : State) (p : loc) : option State :=
  o ← heap s !! p;
  Some (mkState (heap s) (delete (cache_objectKey o) (resources s))).

(** A caller mutating the object behind a pointer it holds. *)
Definition write (s : State) (p : loc) (o : Obj) : State :=
  mkState (<[p := o]> (heap s)) (resources s).

(** The value the cache holds for a key. *)
Definition stored (s : State) (k : string) : option Obj :=
  l ← resources s !! k; heap s !! l.

(** Every pointer of the map points to an allocated object. *)
Definition wf (s : State) : Prop :=
  map_Forall (fun _ l => is_Some (heap s !! l)) (resources s).

End Heap.

(* ------------------------------------------------------------------ *)
(** ** The diff package *)

Module Diff.

(** Results of fallible Go calls: [(x, nil)] or [(_, err)]. *)
Inductive result (A : Type) :=
| Ok (a : A)
| Err (e : string).
Arguments Ok {A} a.
Arguments Err {A} e.

(** The effects of a [Differ]: its logger and standard output. *)
Record World := mkWorld { logs : list string; stdout : string }.

(** Computations that log, print and may return an error. *)
Definition M (A : Type) : Type := World -> World * result A.

Definition ret {A} (a : A) : M A := fun w => (w, Ok a).

Definition bind {A B} (m : M A) (f : A -> M B) : M B :=
  fun w => match m w with
           | (w', Ok a) => f a w'
           | (w', Err e) => (w', Err e)
           end.

Notation "x <- m ;; k" := (bind m (fun x => k))
  (at level 100, m at next level, right associativity).

(** [if err != nil { return ..., fmt.Errorf(prefix + "%w", err) }]. *)
Definition check {A} (prefix : string) (r : result A) : M A :=
  fun w => match r with
           | Ok a => (w, Ok a)
           | Err e => (w, Err (prefix +:+ e))
           end.

(** The same around a call of a fallible method. *)
Definition wrap {A} (prefix : string) (m : M A) : M A :=
  fun w => match m w with
           | (w', Ok a) => (w', Ok a)
           | (w', Err e) => (w', Err (prefix +:+ e))
           end.

Definition warn (msg : string) : M unit :=
  fun w => (mkWorld (app (logs w) [msg]) (stdout w), Ok tt).

Definition print (s : string) : M unit :=
  fun w => (mkWorld (logs w) (stdout w +:+ s), Ok tt).

(** The libraries the [diff] package calls, with the types of their
    compiled expressions, timestamps, color themes and diff results. *)
Class Libraries := {
  JSONPath : Type;
  ExcludePath : Type;
  Time : Type;
  Theme : Type;
  DiffResult : Type;
  (** [json.Marshal] of an object and of a decoded value. *)
  json_Marshal_obj : Obj -> result string;
  json_Marshal : Doc -> result string;
  (** [json.Unmarshal(data, &genericObj)]: the first argument is the map
      already held by [genericObj] ([None] while it is nil), which
      [json.Unmarshal] reuses. *)
  json_Unmarshal : option Doc -> string -> result Doc;
  (** [compiledJSONPath.FindResults]. *)
  FindResults : JSONPath -> Doc -> result (list (list Doc));
  (** [maputil.RemovePath] and the [%v] rendering of an exclude path. *)
  RemovePath : Doc -> ExcludePath -> result Doc;
  show_path : ExcludePath -> string;
  (** [yaml.JSONToYAML]. *)
  JSONToYAML : string -> result string;
  (** [time.Time.Format(time.RFC3339)]. *)
  format_RFC3339 : Time -> string;
  (** [cdiff.Diff(a, b, cdiff.WordByWord)] and [UnifiedWithGooKitColor]. *)
  cdiff_Diff : string -> string -> DiffResult;
  UnifiedWithGooKitColor : DiffResult -> string -> string -> Z -> Theme -> string
}.

Section Differ.

Context {L : Libraries}.

(** The fields of [Options] the [Differ] reads. *)
Record Options := mkOptions {
  ContextLines : Z;
  CreateColorTheme : Theme;
  UpdateColorTheme : Theme;
  DeleteColorTheme : Theme;
  compiledJSONPath : option JSONPath;
  parsedExcludePaths : list ExcludePath
}.

(** Step 2 of [preprocess]: encode to JSON and decode into a fresh map. *)
Definition preprocess_normalize (o : Obj) : M (string * Doc) :=
  generic <- check "failed to encode object as JSON: " (json_Marshal_obj o) ;;
  genericObj <- check "failed to re-decode object from JSON: "
                  (json_Unmarshal None generic) ;;
  ret (generic, genericObj).

(** Step 3: the optional JSON path. *)
Definition preprocess_select (opt : Options) (st : string * Doc) : M (string * Doc) :=
  let '(generic, genericObj) := st in
  match compiledJSONPath opt with
  | None => ret (generic, genericObj)
  | Some jp =>
      match FindResults jp genericObj with
      | Err e =>
          _ <- warn ("Failed to apply JSON path: " +:+ e) ;;
          ret (generic, genericObj)
      | Ok ((r0 :: _) :: _) =>
          generic' <- check "failed to encode JSON path result as JSON: "
                        (json_Marshal r0) ;;
          genericObj' <- check "failed to re-decode JSON path result from JSON: "
                           (json_Unmarshal (Some genericObj) generic') ;;
          ret (generic', genericObj')
      | Ok _ => ret (generic, genericObj)
      end
  end.

(** The [for _, excludePath := range d.opt.parsedExcludePaths] loop. *)
Fixpoint remove_paths (paths : list ExcludePath) (genericObj : Doc) : result Doc :=
  match paths with
  | [] => Ok genericObj
  | p :: ps =>
      match RemovePath genericObj p with
      | Err e => Err ("failed to apply exclude expression " +:+ show_path p +:+ ": " +:+ e)
      | Ok genericObj' => remove_paths ps genericObj'
      end
  end.

(** Step 4: the exclude paths, then re-encoding. *)
Definition preprocess_exclude (opt : Options) (st : string * Doc) : M string :=
  let '(generic, genericObj) := st in
  match parsedExcludePaths opt with
  | [] => ret generic
  | paths =>
      genericObj' <- check "" (remove_paths paths genericObj) ;;
      check "failed to encode exclude expression result as JSON: "
        (json_Marshal genericObj')
  end.

(** [Differ.preprocess]. *)
Definition preprocess (opt : Options) (obj : option Obj) : M string :=
  match obj with
  | None => ret ""
  | Some o =>
      st <- preprocess_normalize o ;;
      st' <- preprocess_select opt st ;;
      generic <- preprocess_exclude opt st' ;;
      check "failed to encode object as YAML: " (JSONToYAML generic)
  end.

(** [objectKey] of the diff package. *)
Definition objectKey (o : Obj) : string := watcher_key o.

(** [diffTitle]. *)
Definition diffTitle (obj : option Obj) (lastSeen : Time) : string :=
  match obj with
  | None => "(none)"
  | Some o =>
      kind o +:+ " " +:+ objectKey o +:+ " v" +:+ format_RFC3339 lastSeen
      +:+ " (" +:+ resourceVersion o +:+ ") (gen. " +:+ pretty (generation o) +:+ ")"
  end.

(** The color theme chosen in [PrintDiff]. *)
Definition colorTheme (opt : Options) (oldObj newObj : option Obj) : Theme :=
  let t := UpdateColorTheme opt in
  let t := match oldObj with None => CreateColorTheme opt | Some _ => t end in
  match newObj with None => DeleteColorTheme opt | Some _ => t end.

(** [Differ.PrintDiff]; [now] is the value of [time.Now()]. *)
Definition PrintDiff (opt : Options) (oldObj newObj : option Obj)
    (lastSeen now : Time) : M unit :=
  oldString <- wrap "failed to process previous object: " (preprocess opt oldObj) ;;
  newString <- wrap "failed to process current object: " (preprocess opt newObj) ;;
  let titleA := diffTitle oldObj lastSeen in
  let titleB := diffTitle newObj now in
  let theme := colorTheme opt oldObj newObj in
  let diff := cdiff_Diff oldString newString in
  print (UnifiedWithGooKitColor diff titleA titleB (ContextLines opt) theme).

(** The same options without a JSON path. *)
Definition without_selector (opt : Options) : Options :=
  {| ContextLines := ContextLines opt;
     CreateColorTheme := CreateColorTheme opt;
     UpdateColorTheme := UpdateColorTheme opt;
     DeleteColorTheme := DeleteColorTheme opt;
     compiledJSONPath := None;
     parsedExcludePaths := parsedExcludePaths opt |}.

End Differ.




End Diff.

(* ------------------------------------------------------------------ *)
(** ** Auxiliary definitions for the statements *)

(** Does a printed block end with a blank line ("\n\n")? *)
Definition ends_with_blank_line (s : string) : bool :=
  match string_rev s with
  | String c1 (String c2 _) => Ascii.eqb c1 "010"%char && Ascii.eqb c2 "010"%char
  | _ => false
  end.

(** Sample objects. *)
Definition nginx (app : string) (rv : string) : Obj :=
  {| kind := "Pod"; namespace := "default"; name := "nginx";
     resourceVersion := rv; generation := 1;
     managedFields := Some [DMap [("manager", DScalar "kubelet")]];
     content := DMap [("metadata", DMap [("labels", DMap [("app", DScalar app)])])] |}.

Definition nginx_v1 : Obj := nginx "nginx" "100".
Definition nginx_v2 : Obj := nginx "nginx-v2" "101".

Example watcher_key_nginx : watcher_key nginx_v1 = "default/nginx".
Proof. reflexivity. Qed.

Example header_delete_nginx :
  header "DELETE" "default/nginx"
  = "--- DELETE --- default/nginx ---------------------------------------------" +:+ nl.
Proof. reflexivity. Qed.

Example watcher_create_update_delete :
  snd (watcher false [mkEvent Added (Unstructured nginx_v1);
                      mkEvent Modified (Unstructured nginx_v2);
                      mkEvent Deleted (Unstructured nginx_v2);
                      mkEvent Modified (Unstructured nginx_v1)])
  = [BCreate "default/nginx" nginx_v1;
     BUpdate "default/nginx" (Some nginx_v1) nginx_v2;
     BDelete "default/nginx";
     BUpdate "default/nginx" None nginx_v1].
Proof. reflexivity. Qed.

Example SplitLines_two : SplitLines ("a" +:+ nl +:+ "b") = ["a" +:+ nl; "b" +:+ nl].
Proof. reflexivity. Qed.

Example TrimSpace_nl : TrimSpace (nl +:+ " ab " +:+ nl +:+ nl) = "ab".
Proof. reflexivity. Qed.

(* ------------------------------------------------------------------ *)
(** ** The watcher and its cache *)

(** The object [watcher] works with after the managed-fields stripping. *)
Definition prepared (hide : bool) (o : Obj) : Obj :=
  if hide then SetManagedFields_nil o else o.

Lemma watcher_step_unstructured hide cache t o :
  watcher_step hide cache (mkEvent t (Unstructured o))
  = let m := prepared hide o in
    match t with
    | Added => (cache_Set cache m, [BCreate (watcher_key m) m])
    | Modified => (cache_Set cache m, [BUpdate (watcher_key m) (cache_Get cache m) m])
    | Deleted => (cache_Delete cache m, [BDelete (watcher_key m)])
    | _ => (cache, [])
    end.
Proof. reflexivity. Qed.

(** C1: an UPDATE event emits a diff whose previous side is the result of
    looking up the identity in the cache ([None] when it was never seen,
    without failing), and afterwards the cache maps the identity to the
    current document, every other entry unchanged. *)
Theorem watcher_update_previous_from_cache (hide : bool) (cache : resourceCache) (o : Obj) :
  let m := prepared hide o in
  let '(cache', out) := watcher_step hide cache (mkEvent Modified (Unstructured o)) in
  out = [BUpdate (watcher_key m) (cache !! cache_objectKey m) m] /\
  map block_previous out = [cache !! cache_objectKey m] /\
  (cache !! cache_objectKey m = None -> map block_previous out = [None]) /\
  cache' !! cache_objectKey m = Some m /\
  (forall k, k <> cache_objectKey m -> cache' !! k = cache !! k).
Proof.
  rewrite watcher_step_unstructured; cbn -[cache_objectKey].
  unfold cache_Set, cache_Get.
  split; [reflexivity|]. split; [reflexivity|].
  split; [intros ->; reflexivity|]. split.
  - apply lookup_insert_eq.
  - intros k Hk. by rewrite lookup_insert_ne.
Qed.

(** C2 (counterexample): a CREATE for an identity already in the cache
    does not use the cached value as its previous side: the block is the
    plain CREATE block of the current document. *)
Lemma create_duplicate_ignores_cached_value :
  let c0 := <[cache_objectKey nginx_v1 := nginx_v1]> (∅ : resourceCache) in
  c0 !! cache_objectKey nginx_v2 = Some nginx_v1 /\
  snd (watcher_step false c0 (mkEvent Added (Unstructured nginx_v2)))
    = [BCreate "default/nginx" nginx_v2] /\
  map block_previous (snd (watcher_step false c0 (mkEvent Added (Unstructured nginx_v2))))
    <> [Some nginx_v1].
Proof.
  cbn. split; [reflexivity|]. split; [reflexivity|]. discriminate.
Qed.

(** C2 (amended): a CREATE event never reads the cache: whatever the
    cache holds for the identity, the block is the CREATE block (full
    rendering of the current document, no previous side), and the current
    document is written into the cache, overwriting any entry. *)
Theorem watcher_create_ignores_cache (hide : bool) (cache : resourceCache) (o : Obj) :
  let m := prepared hide o in
  watcher_step hide cache (mkEvent Added (Unstructured o))
    = (<[cache_objectKey m := m]> cache, [BCreate (watcher_key m) m]) /\
  snd (watcher_step hide cache (mkEvent Added (Unstructured o)))
    = snd (watcher_step hide ∅ (mkEvent Added (Unstructured o))) /\
  map block_previous (snd (watcher_step hide cache (mkEvent Added (Unstructured o))))
    = [None].
Proof. split; [reflexivity | split; reflexivity]. Qed.

(** C3: a DELETE event removes the identity from the cache (a no-op when
    it is absent, every other entry unchanged) and prints the header
    naming the action and the identity, with no body. *)
Theorem watcher_delete_header_only (hide : bool) (cache : resourceCache) (o : Obj) :
  let m := prepared hide o in
  let '(cache', out) := watcher_step hide cache (mkEvent Deleted (Unstructured o)) in
  cache' !! cache_objectKey m = None /\
  (forall k, k <> cache_objectKey m -> cache' !! k = cache !! k) /\
  (cache !! cache_objectKey m = None -> cache' = cache) /\
  out = [BDelete (watcher_key m)] /\
  (forall yaml_Marshal GetUnifiedDiffString,
     map (print_block yaml_Marshal GetUnifiedDiffString) out
     = [header "DELETE" (watcher_key m)]).
Proof.
  rewrite watcher_step_unstructured; cbn -[cache_objectKey header].
  unfold cache_Delete.
  split; [apply lookup_delete_eq|]. split.
  - intros k Hk. by rewrite lookup_delete_ne.
  - split; [intros H; by apply delete_id|].
    split; [reflexivity|]. intros y d. reflexivity.
Qed.

(** C4 (code bug): on the events CREATE, DELETE, CREATE of
    [default/nginx], the CREATE blocks end with a blank line but the
    DELETE block is its header line alone, so the next block's header
    follows it with no blank line in between.  The DELETE branch of
    [watcher] has the [fmt.Printf("%s\n\n", ...)] of its siblings
    commented out. *)
Lemma delete_block_lacks_blank_line :
  let yaml := fun _ : option Obj => "kind: Pod" in
  let render := fun _ : UnifiedDiff => "@@ -1 +1 @@" in
  watcher_output yaml render false
    [mkEvent Added (Unstructured nginx_v1); mkEvent Deleted (Unstructured nginx_v1);
     mkEvent Added (Unstructured nginx_v2)]
  = header "CREATE" "default/nginx" +:+ "kind: Pod" +:+ nl +:+ nl
    +:+ header "DELETE" "default/nginx"
    +:+ header "CREATE" "default/nginx" +:+ "kind: Pod" +:+ nl +:+ nl /\
  ends_with_blank_line (print_block yaml render (BDelete "default/nginx")) = false /\
  ends_with_blank_line (print_block yaml render (BCreate "default/nginx" nginx_v1)) = true /\
  ends_with_blank_line
    (print_block yaml render (BUpdate "default/nginx" (Some nginx_v1) nginx_v2)) = true.
Proof. split; [vm_compute; reflexivity|]. split; [|split]; reflexivity. Qed.

(** Objects without their managed-fields entry. *)
Definition no_managedFields (o : Obj) : Prop := managedFields o = None.

Lemma watcher_step_no_managedFields (cache : resourceCache) (e : Event) :
  map_Forall (fun _ => no_managedFields) cache ->
  let '(cache', out) := watcher_step true cache e in
  map_Forall (fun _ => no_managedFields) cache' /\
  Forall (fun b => forall p, block_previous b = Some p -> no_managedFields p) out.
Proof.
  intros Hc. destruct e as [t [o|]]; cbn; [|split; [exact Hc | constructor]].
  assert (Hm : no_managedFields (SetManagedFields_nil o)) by reflexivity.
  destruct t; cbn -[cache_objectKey]; (split; [|repeat constructor]);
    try (cbn; discriminate); try exact Hc.
  - by apply map_Forall_insert_2.
  - by apply map_Forall_insert_2.
  - intros p Hp. exact (Hc _ _ Hp).
  - by apply map_Forall_delete.
Qed.

Lemma watcher_loop_no_managedFields (cache : resourceCache) (events : list Event) :
  map_Forall (fun _ => no_managedFields) cache ->
  let '(cache', out) := watcher_loop true cache events in
  map_Forall (fun _ => no_managedFields) cache' /\
  Forall (fun b => forall p, block_previous b = Some p -> no_managedFields p) out.
Proof.
  revert cache. induction events as [|e es IH]; intros cache Hc; cbn.
  - split; [exact Hc | constructor].
  - pose proof (watcher_step_no_managedFields cache e Hc) as Hs.
    destruct (watcher_step true cache e) as [c1 o1].
    destruct Hs as [Hc1 Ho1].
    specialize (IH c1 Hc1).
    destruct (watcher_loop true c1 es) as [c2 o2].
    destruct IH as [Hc2 Ho2].
    split; [exact Hc2 | by apply Forall_app_2].
Qed.

(** C10: with managed-field stripping on, every object the cache of a
    watch holds has no managed-fields entry, and neither has the previous
    side of any UPDATE block the watch prints. *)
Theorem watcher_cache_strips_managedFields (events : list Event) :
  let '(cache, out) := watcher true events in
  map_Forall (fun _ o => managedFields o = None) cache /\
  Forall (fun b => forall p, block_previous b = Some p -> managedFields p = None) out.
Proof.
  apply (watcher_loop_no_managedFields ∅ events), map_Forall_empty.
Qed.

(* ------------------------------------------------------------------ *)
(** ** Isolation of the cache at the pointer level *)

Module HeapFacts.
Import Heap.

Lemma fresh_not_cached (s : State) k l :
  wf s -> resources s !! k = Some l -> l <> fresh (dom (heap s)).
Proof.
  intros Hwf Hk ->. pose proof (Hwf _ _ Hk) as Hin.
  apply elem_of_dom in Hin. exact (is_fresh (dom (heap s)) Hin).
Qed.

Lemma stored_alloc (s : State) (o : Obj) k :
  wf s -> stored (fst (alloc s o)) k = stored s k.
Proof.
  intros Hwf. unfold stored, alloc; cbn.
  destruct (resources s !! k) as [l|] eqn:Hk; cbn; [|reflexivity].
  rewrite lookup_insert_ne; [reflexivity|].
  intros Heq. exact (fresh_not_cached s k l Hwf Hk (eq_sym Heq)).
Qed.

Lemma Get_Some (s : State) p s' l' :
  Get s p = Some (s', Some l') ->
  exists o existing v,
    heap s !! p = Some o /\ resources s !! cache_objectKey o = Some existing /\
    heap s !! existing = Some v /\ l' = fresh (dom (heap s)) /\
    s' = mkState (<[l' := v]> (heap s)) (resources s).
Proof.
  unfold Get, DeepCopy, alloc.
  destruct (heap s !! p) as [o|]; cbn; [|discriminate].
  destruct (resources s !! cache_objectKey o) as [existing|] eqn:He; cbn; [|discriminate].
  destruct (heap s !! existing) as [v|] eqn:Hv; cbn; [|discriminate].
  intros [= <- <-]. exists o, existing, v. eauto 10.
Qed.

Lemma Set_Some (s : State) p s' :
  Set_ s p = Some s' ->
  exists o, heap s !! p = Some o /\
    s' = mkState (<[fresh (dom (heap s)) := o]> (heap s))
                 (<[cache_objectKey o := fresh (dom (heap s))]> (resources s)).
Proof.
  unfold Set_, DeepCopy, alloc.
  destruct (heap s !! p) as [o|] eqn:Hp; cbn; [|discriminate].
  intros [= <-]. eauto.
Qed.

End HeapFacts.

Example Heap_Get_absent :
  Heap.Get (Heap.mkState {[1%positive := nginx_v1]} ∅) 1%positive
  = Some (Heap.mkState {[1%positive := nginx_v1]} ∅, None).
Proof. reflexivity. Qed.

(** C9: with every pointer of the cache allocated, [Get] on an absent
    identity returns nil and leaves the state as it is; [Get] on a present
    identity returns a fresh copy of the stored object, leaves every
    stored value unchanged, and writing through the returned pointer
    changes no stored value; after [Set(obj)] the cache holds the value of
    [obj] and writing through [obj] does not change it. *)
Theorem cache_get_set_isolation (s : Heap.State) :
  Heap.wf s ->
  (forall p o, Heap.heap s !! p = Some o ->
     Heap.resources s !! cache_objectKey o = None ->
     Heap.Get s p = Some (s, None)) /\
  (forall p s' l', Heap.Get s p = Some (s', Some l') ->
     (exists o, Heap.heap s !! p = Some o /\
                Heap.heap s' !! l' = Heap.stored s (cache_objectKey o)) /\
     (forall k, Heap.stored s' k = Heap.stored s k) /\
     (forall o' k, Heap.stored (Heap.write s' l' o') k = Heap.stored s k)) /\
  (forall p s' o, Heap.Set_ s p = Some s' -> Heap.heap s !! p = Some o ->
     Heap.stored s' (cache_objectKey o) = Some o /\
     (forall o', Heap.stored (Heap.write s' p o') (cache_objectKey o) = Some o)).
Proof.
  intros Hwf. split; [|split].
  - intros p o Hp Hk. unfold Heap.Get. rewrite Hp; cbn. by rewrite Hk.
  - intros p s' l' HG.
    destruct (HeapFacts.Get_Some s p s' l' HG) as (o & ex & v & Hp & He & Hv & -> & ->).
    assert (Hst : forall k, Heap.stored (Heap.mkState
                 (<[fresh (dom (Heap.heap s)) := v]> (Heap.heap s)) (Heap.resources s)) k
               = Heap.stored s k)
      by (intros k; exact (HeapFacts.stored_alloc s v k Hwf)).
    split; [|split; [exact Hst|]].
    + exists o. split; [exact Hp|]. cbn. rewrite lookup_insert_eq.
      unfold Heap.stored. by rewrite He; cbn; rewrite Hv.
    + intros o' k. unfold Heap.write; cbn. rewrite insert_insert_eq.
      exact (HeapFacts.stored_alloc s o' k Hwf).
  - intros p s' o HS Hp.
    destruct (HeapFacts.Set_Some s p s' HS) as (o0 & Hp0 & ->).
    rewrite Hp in Hp0. injection Hp0 as <-.
    assert (Hne : p <> fresh (dom (Heap.heap s))).
    { intros ->. apply (is_fresh (dom (Heap.heap s))). apply elem_of_dom. by eexists. }
    unfold Heap.stored, Heap.write; cbn. rewrite !lookup_insert_eq; cbn.
    split; [by rewrite lookup_insert_eq|].
    intros o'. rewrite lookup_insert_ne by congruence. by rewrite lookup_insert_eq.
Qed.

(* ------------------------------------------------------------------ *)
(** ** The transform pipeline and the renderer *)

Module DiffFacts.
Import Diff.

(** A computation whose result does not depend on the incoming world. *)
Definition world_independent {A} (m : M A) : Prop :=
  forall w w', snd (m w) = snd (m w').

Lemma world_independent_ret {A} (a : A) : world_independent (ret a).
Proof. intros w w'. reflexivity. Qed.

Lemma world_independent_check {A} p (r : result A) : world_independent (check p r).
Proof. intros w w'. by destruct r. Qed.

Lemma world_independent_warn msg : world_independent (warn msg).
Proof. intros w w'. reflexivity. Qed.

Lemma world_independent_print s : world_independent (print s).
Proof. intros w w'. reflexivity. Qed.

Lemma world_independent_bind {A B} (m : M A) (f : A -> M B) :
  world_independent m -> (forall a, world_independent (f a)) ->
  world_independent (bind m f).
Proof.
  intros Hm Hf w w'. unfold bind. specialize (Hm w w').
  destruct (m w) as [w1 [a|e]], (m w') as [w1' [a'|e']]; cbn in *;
    try discriminate; [injection Hm as ->; apply Hf | congruence].
Qed.

Lemma world_independent_wrap {A} p (m : M A) :
  world_independent m -> world_independent (wrap p m).
Proof.
  intros Hm w w'. unfold wrap. specialize (Hm w w').
  destruct (m w) as [w1 [a|e]], (m w') as [w1' [a'|e']]; cbn in *; congruence.
Qed.

Create HintDb world_indep.
#[local] Hint Resolve world_independent_ret world_independent_check
  world_independent_warn world_independent_print world_independent_bind
  world_independent_wrap : world_indep.

(** A computation that prints nothing. *)
Definition keeps_stdout {A} (m : M A) : Prop :=
  forall w, stdout (fst (m w)) = stdout w.

Lemma keeps_stdout_ret {A} (a : A) : keeps_stdout (ret a).
Proof. intros w. reflexivity. Qed.

Lemma keeps_stdout_check {A} p (r : result A) : keeps_stdout (check p r).
Proof. intros w. by destruct r. Qed.

Lemma keeps_stdout_warn msg : keeps_stdout (warn msg).
Proof. intros w. reflexivity. Qed.

Lemma keeps_stdout_bind {A B} (m : M A) (f : A -> M B) :
  keeps_stdout m -> (forall a, keeps_stdout (f a)) -> keeps_stdout (bind m f).
Proof.
  intros Hm Hf w. unfold bind. specialize (Hm w).
  destruct (m w) as [w1 [a|e]]; cbn in *; [by rewrite Hf|exact Hm].
Qed.

Create HintDb no_print.
#[local] Hint Resolve keeps_stdout_ret keeps_stdout_check keeps_stdout_warn
  keeps_stdout_bind : no_print.

Section Pipeline.
Context {L : Libraries}.

(** [preprocess] never writes to standard output. *)
Lemma preprocess_keeps_stdout (opt : Options) (obj : option Obj) :
  keeps_stdout (preprocess opt obj).
Proof.
  destruct obj as [o|]; cbn; [|auto with no_print].
  apply keeps_stdout_bind; [unfold preprocess_normalize; auto with no_print|].
  intros [g go]. apply keeps_stdout_bind.
  - cbn. destruct (compiledJSONPath opt) as [jp|]; [|auto with no_print].
    destruct (FindResults jp go) as [[|[|r0 rs] rss]|e]; auto with no_print.
  - intros [g' go']. apply keeps_stdout_bind; [|auto with no_print].
    cbn. destruct (parsedExcludePaths opt); auto with no_print.
Qed.


Lemma check_check_world {A B} p1 p2 (r : result A) (f : A -> result B) w :
  fst (bind (check p1 r) (fun a => check p2 (f a)) w) = w.
Proof. unfold bind, check. destruct r as [a|e]; cbn; [by destruct (f a)|reflexivity]. Qed.

(** The steps after the selector neither log nor print. *)
Lemma preprocess_exclude_world (opt : Options) st w :
  fst (preprocess_exclude opt st w) = w.
Proof.
  destruct st as [g go]. unfold preprocess_exclude.
  destruct (parsedExcludePaths opt) as [|p ps]; [reflexivity|].
  apply check_check_world.
Qed.

End Pipeline.
End DiffFacts.

Module DiffClaims.
Import Diff DiffFacts.

Section Claims.
Context {L : Libraries}.

Lemma bind_Ok {A B} (m : M A) (f : A -> M B) w w1 a :
  m w = (w1, Ok a) -> bind m f w = f a w1.
Proof. unfold bind. by intros ->. Qed.

Lemma bind_Err {A B} (m : M A) (f : A -> M B) w w1 e :
  m w = (w1, Err e) -> bind m f w = (w1, Err e).
Proof. unfold bind. by intros ->. Qed.

(** [preprocess] once the normalization step has succeeded. *)
Lemma preprocess_after_normalize (opt : Options) o w w1 st :
  preprocess_normalize o w = (w1, Ok st) ->
  preprocess opt (Some o) w
  = bind (preprocess_select opt st)
      (fun st' => bind (preprocess_exclude opt st')
         (fun generic => check "failed to encode object as YAML: " (JSONToYAML generic))) w1.
Proof. intros Hn. unfold preprocess. exact (bind_Ok _ _ _ _ _ Hn). Qed.

Lemma exclude_yaml_world (opt : Options) st w :
  fst (bind (preprocess_exclude opt st)
         (fun generic => check "failed to encode object as YAML: " (JSONToYAML generic)) w) = w.
Proof.
  pose proof (preprocess_exclude_world opt st w) as Hw.
  unfold bind. destruct (preprocess_exclude opt st w) as [w' [g|e]]; cbn in *; subst;
    [by destruct (JSONToYAML g) | reflexivity].
Qed.

(** C6: [preprocess] of a nil object returns the empty text, no error,
    and neither logs nor prints. *)
Theorem preprocess_absent_is_empty (opt : Options) (w : World) :
  preprocess opt None w = (w, Ok "").
Proof. reflexivity. Qed.

(** C7: when the JSON path fails to evaluate, [preprocess] logs a warning
    and otherwise returns what it returns without a JSON path (it goes on
    with the unfiltered document); when removing an exclude path fails,
    [preprocess] returns that error. *)
Theorem preprocess_selector_failure_nonfatal :
  (forall (opt : Options) (o : Obj) (w w1 : World) (st : string * Doc)
          (jp : JSONPath) (e : string),
     preprocess_normalize o w = (w1, Ok st) ->
     compiledJSONPath opt = Some jp ->
     FindResults jp (snd st) = Err e ->
     snd (preprocess opt (Some o) w)
       = snd (preprocess (without_selector opt) (Some o) w) /\
     logs (fst (preprocess opt (Some o) w))
       = app (logs (fst (preprocess (without_selector opt) (Some o) w)))
           ["Failed to apply JSON path: " +:+ e]) /\
  (forall (opt : Options) (o : Obj) (w w1 w2 : World) (st st' : string * Doc)
          (e : string),
     preprocess_normalize o w = (w1, Ok st) ->
     preprocess_select opt st w1 = (w2, Ok st') ->
     remove_paths (parsedExcludePaths opt) (snd st') = Err e ->
     snd (preprocess opt (Some o) w) = Err e).
Proof.
  split.
  - intros opt o w w1 [g go] jp e Hn Hjp HF. cbn in HF.
    rewrite !(preprocess_after_normalize _ o w w1 (g, go) Hn).
    set (msg := "Failed to apply JSON path: " +:+ e).
    assert (Hs : preprocess_select opt (g, go) w1
                 = (mkWorld (app (logs w1) [msg]) (stdout w1), Ok (g, go))).
    { unfold preprocess_select. by rewrite Hjp, HF. }
    assert (Hs' : preprocess_select (without_selector opt) (g, go) w1 = (w1, Ok (g, go)))
      by reflexivity.
    rewrite (bind_Ok _ _ _ _ _ Hs), (bind_Ok _ _ _ _ _ Hs').
    assert (Hx : preprocess_exclude (without_selector opt) (g, go)
                 = preprocess_exclude opt (g, go)) by reflexivity.
    rewrite Hx. split.
    + apply world_independent_bind; [|intros; apply world_independent_check].
      intros w3 w4. destruct (parsedExcludePaths opt) as [|p ps] eqn:Hp;
        unfold preprocess_exclude; rewrite Hp; [reflexivity|].
      apply world_independent_bind; intros; apply world_independent_check.
    + rewrite !exclude_yaml_world. reflexivity.
  - intros opt o w w1 w2 st [g' go'] e Hn Hs Hr. cbn in Hr.
    rewrite (preprocess_after_normalize _ o w w1 st Hn), (bind_Ok _ _ _ _ _ Hs).
    assert (Hx : preprocess_exclude opt (g', go') w2 = (w2, Err e)).
    { unfold preprocess_exclude.
      destruct (parsedExcludePaths opt) as [|p ps]; [discriminate|].
      unfold bind, check. rewrite Hr. cbn. reflexivity. }
    by rewrite (bind_Err _ _ _ _ _ Hx).
Qed.


Lemma wrap_Ok {A} p (m : M A) w w1 a :
  m w = (w1, Ok a) -> wrap p m w = (w1, Ok a).
Proof. unfold wrap. by intros ->. Qed.

(** C5 (amended): the watcher of main.go prints an UPDATE as its header
    followed by [diffObjects] of the cached and the current object: an
    uncolored difflib unified diff of the YAML of both sides, headed
    [Previous]/[Current], asked with the fixed context [3] (the watcher
    reads no configuration).  [Differ.PrintDiff], which the watcher does
    not call, prints nothing but the colored diff, asked with the
    configured [ContextLines] and the theme chosen by which side is nil:
    [UpdateColorTheme] when both sides are present, [CreateColorTheme] when
    the previous side is nil, [DeleteColorTheme] when the current side is
    nil. *)
Theorem diff_rendering_parameters :
  (forall (yaml_Marshal : option Obj -> string)
          (GetUnifiedDiffString : UnifiedDiff -> string)
          (hide : bool) (cache : resourceCache) (o : Obj),
     let m := prepared hide o in
     map (print_block yaml_Marshal GetUnifiedDiffString)
       (snd (watcher_step hide cache (mkEvent Modified (Unstructured o))))
     = [header "UPDATE" (watcher_key m)
        +:+ TrimSpace (GetUnifiedDiffString
              {| ud_A := SplitLines (yaml_Marshal (cache !! cache_objectKey m));
                 ud_B := SplitLines (yaml_Marshal (Some m));
                 ud_FromFile := "Previous"; ud_ToFile := "Current";
                 ud_Context := 3 |})
        +:+ nl +:+ nl]) /\
  (forall (opt : Options) (oldObj newObj : option Obj) (lastSeen now : Time)
          (w w1 w2 : World) (oldString newString : string),
     preprocess opt oldObj w = (w1, Ok oldString) ->
     preprocess opt newObj w1 = (w2, Ok newString) ->
     PrintDiff opt oldObj newObj lastSeen now w
     = (mkWorld (logs w2)
          (stdout w +:+ UnifiedWithGooKitColor (cdiff_Diff oldString newString)
             (diffTitle oldObj lastSeen) (diffTitle newObj now)
             (ContextLines opt)
             (match oldObj, newObj with
              | _, None => DeleteColorTheme opt
              | None, Some _ => CreateColorTheme opt
              | Some _, Some _ => UpdateColorTheme opt
              end)),
        Ok tt)).
Proof.
  split.
  - intros y g hide cache o m. rewrite watcher_step_unstructured. reflexivity.
  - intros opt oldObj newObj lastSeen now w w1 w2 oldString newString H1 H2.
    pose proof (preprocess_keeps_stdout opt oldObj w) as S1.
    pose proof (preprocess_keeps_stdout opt newObj w1) as S2.
    rewrite H1 in S1. rewrite H2 in S2. cbn in S1, S2.
    unfold PrintDiff.
    rewrite (bind_Ok _ _ _ _ _ (wrap_Ok _ _ _ _ _ H1)).
    rewrite (bind_Ok _ _ _ _ _ (wrap_Ok _ _ _ _ _ H2)).
    unfold print, colorTheme. cbn. rewrite S2, S1.
    by destruct oldObj, newObj.
Qed.

End Claims.
End DiffClaims.

(* ------------------------------------------------------------------ *)
(** ** Concrete runs *)

Module Samples.
Import Diff.

(** A small implementation of the libraries: objects encode to their
    name, a JSON path ["{.status"] does not parse, and an empty exclude
    path cannot be removed. *)
#[local] Instance sample_libraries : Libraries := {|
  JSONPath := string;
  ExcludePath := string;
  Time := string;
  Theme := string;
  DiffResult := string;
  json_Marshal_obj := fun o => Ok (name o);
  json_Marshal := fun d => match d with DScalar s => Ok s | _ => Ok "{}" end;
  json_Unmarshal := fun _ s => Ok (DMap [("name", DScalar s)]);
  FindResults := fun jp d =>
    if String.eqb jp "{.status" then Err "unclosed action" else Ok [[d]];
  RemovePath := fun d p => if String.eqb p "" then Err "empty path" else Ok d;
  show_path := fun p => p;
  JSONToYAML := fun s => Ok s;
  format_RFC3339 := fun t => t;
  cdiff_Diff := fun a b => a +:+ "|" +:+ b;
  UnifiedWithGooKitColor := fun d a b _ t => a +:+ b +:+ d +:+ t
|}.

Definition bad_selector_options : Options :=
  {| ContextLines := 5; CreateColorTheme := "green"; UpdateColorTheme := "yellow";
     DeleteColorTheme := "red"; compiledJSONPath := Some "{.status";
     parsedExcludePaths := [] |}.

Definition bad_exclude_options : Options :=
  {| ContextLines := 5; CreateColorTheme := "green"; UpdateColorTheme := "yellow";
     DeleteColorTheme := "red"; compiledJSONPath := None;
     parsedExcludePaths := [""] |}.

Definition w0 : World := mkWorld [] "".

Definition nginx_st : string * Doc := ("nginx", DMap [("name", DScalar "nginx")]).

Example preprocess_bad_selector :
  preprocess bad_selector_options (Some nginx_v1) w0
  = (mkWorld ["Failed to apply JSON path: unclosed action"] "", Ok "nginx").
Proof. reflexivity. Qed.

(** C7 (witness). *)
Lemma preprocess_selector_failure_nonfatal_witness :
  (preprocess_normalize nginx_v1 w0 = (w0, Ok nginx_st) /\
   compiledJSONPath bad_selector_options = Some "{.status" /\
   FindResults "{.status" (snd nginx_st) = Err "unclosed action" /\
   snd (preprocess bad_selector_options (Some nginx_v1) w0)
     = snd (preprocess (without_selector bad_selector_options) (Some nginx_v1) w0) /\
   logs (fst (preprocess bad_selector_options (Some nginx_v1) w0))
     = app (logs (fst (preprocess (without_selector bad_selector_options) (Some nginx_v1) w0)))
         ["Failed to apply JSON path: " +:+ "unclosed action"]) /\
  (preprocess_normalize nginx_v1 w0 = (w0, Ok nginx_st) /\
   preprocess_select bad_exclude_options nginx_st w0 = (w0, Ok nginx_st) /\
   remove_paths (parsedExcludePaths bad_exclude_options) (snd nginx_st)
     = Err "failed to apply exclude expression : empty path" /\
   snd (preprocess bad_exclude_options (Some nginx_v1) w0)
     = Err "failed to apply exclude expression : empty path").
Proof.
  assert (Hn : preprocess_normalize nginx_v1 w0 = (w0, Ok nginx_st)) by reflexivity.
  assert (Hj : compiledJSONPath bad_selector_options = Some "{.status") by reflexivity.
  assert (Hf : FindResults "{.status" (snd nginx_st) = Err "unclosed action") by reflexivity.
  assert (Hs : preprocess_select bad_exclude_options nginx_st w0 = (w0, Ok nginx_st))
    by reflexivity.
  assert (Hr : remove_paths (parsedExcludePaths bad_exclude_options) (snd nginx_st)
               = Err "failed to apply exclude expression : empty path") by reflexivity.
  split.
  - split; [exact Hn|]. split; [exact Hj|]. split; [exact Hf|].
    exact (proj1 DiffClaims.preprocess_selector_failure_nonfatal
             bad_selector_options nginx_v1 w0 w0 nginx_st "{.status" "unclosed action"
             Hn Hj Hf).
  - split; [exact Hn|]. split; [exact Hs|]. split; [exact Hr|].
    exact (proj2 DiffClaims.preprocess_selector_failure_nonfatal
             bad_exclude_options nginx_v1 w0 w0 w0 nginx_st nginx_st _ Hn Hs Hr).
Defined.

(** C5 (counterexample): with [ContextLines = 5] configured, the watcher
    prints the UPDATE of [default/nginx] with a diff asked for 3 lines of
    context (the renderer below names the context it is asked for), and
    for an UPDATE whose previous side is absent [PrintDiff] picks the
    CREATE theme, not the UPDATE one. *)
Lemma update_diff_ignores_configured_context :
  let render := fun ud : UnifiedDiff =>
    if Z.eqb (ud_Context ud) 3 then "context 3" else "other context" in
  ContextLines bad_selector_options = 5%Z /\
  map (print_block (fun _ => "") render)
    (snd (watcher false [mkEvent Added (Unstructured nginx_v1);
                         mkEvent Modified (Unstructured nginx_v2)]))
  = [header "CREATE" "default/nginx" +:+ nl +:+ nl;
     header "UPDATE" "default/nginx" +:+ "context 3" +:+ nl +:+ nl] /\
  colorTheme bad_selector_options None (Some nginx_v2) = "green" /\
  UpdateColorTheme bad_selector_options = "yellow".
Proof. split; [reflexivity|]. split; [vm_compute; reflexivity|]. split; reflexivity. Qed.

End Samples.

(** The cache state after [Set] of [default/nginx] at version 1, with the
    caller's object at pointer 1 and the cached copy at pointer 2. *)
Definition heap_sample : Heap.State :=
  Heap.mkState {[1%positive := nginx_v1; 2%positive := nginx_v1]}
               {[cache_objectKey nginx_v1 := 2%positive]}.

Lemma heap_sample_wf : Heap.wf heap_sample.
Proof.
  intros k l Hk. unfold heap_sample in Hk; cbn in Hk.
  apply lookup_singleton_Some in Hk as [_ <-]. by eexists.
Qed.

(** C9 (witness). *)
Lemma cache_get_set_isolation_witness :
  Heap.wf heap_sample /\
  (forall p o, Heap.heap heap_sample !! p = Some o ->
     Heap.resources heap_sample !! cache_objectKey o = None ->
     Heap.Get heap_sample p = Some (heap_sample, None)) /\
  (forall p s' l', Heap.Get heap_sample p = Some (s', Some l') ->
     (exists o, Heap.heap heap_sample !! p = Some o /\
                Heap.heap s' !! l' = Heap.stored heap_sample (cache_objectKey o)) /\
     (forall k, Heap.stored s' k = Heap.stored heap_sample k) /\
     (forall o' k, Heap.stored (Heap.write s' l' o') k = Heap.stored heap_sample k)) /\
  (forall p s' o, Heap.Set_ heap_sample p = Some s' -> Heap.heap heap_sample !! p = Some o ->
     Heap.stored s' (cache_objectKey o) = Some o /\
     (forall o', Heap.stored (Heap.write s' p o') (cache_objectKey o) = Some o)).
Proof.
  split; [exact heap_sample_wf|].
  exact (cache_get_set_isolation heap_sample heap_sample_wf).
Defined.

(* ------------------------------------------------------------------ *)
(** ** Further properties of the watcher and its cache *)

Module WatcherFacts.

Lemma string_app_assoc (a b c : string) : (a +:+ b) +:+ c = a +:+ (b +:+ c).
Proof.
  induction a as [|x a IH]; [reflexivity|].
  change (String x ((a +:+ b) +:+ c) = String x (a +:+ (b +:+ c))). by rewrite IH.
Qed.

Lemma string_app_nil_r (a : string) : a +:+ EmptyString = a.
Proof.
  induction a as [|x a IH]; [reflexivity|].
  change (String x (a +:+ EmptyString) = String x a). by rewrite IH.
Qed.

(** Does a string contain a ['/']? *)
Fixpoint has_slash (s : string) : bool :=
  match s with
  | EmptyString => false
  | String c s' => Ascii.eqb c "/"%char || has_slash s'
  end.

Lemma slash_split (a b c d : string) :
  has_slash a = false -> has_slash c = false ->
  a +:+ "/" +:+ b = c +:+ "/" +:+ d -> a = c /\ b = d.
Proof.
  revert c. induction a as [|x a IH]; intros [|y c] Ha Hc H; cbn in *.
  - by injection H.
  - injection H as <- _. discriminate.
  - injection H as -> _. rewrite Ascii.eqb_refl in Ha. discriminate.
  - apply orb_false_elim in Ha as [_ Ha]. apply orb_false_elim in Hc as [_ Hc].
    injection H as -> H. destruct (IH c Ha Hc H) as [-> ->]. done.
Qed.

(** X1: two objects whose namespaces contain no ['/'] (as Kubernetes
    namespace names never do) share an entry of the cache exactly when
    they have the same namespace and the same name. *)
Theorem cache_objectKey_identity (o1 o2 : Obj) :
  has_slash (namespace o1) = false -> has_slash (namespace o2) = false ->
  (cache_objectKey o1 = cache_objectKey o2 <->
   namespace o1 = namespace o2 /\ name o1 = name o2).
Proof.
  intros H1 H2. unfold cache_objectKey. split.
  - apply slash_split; assumption.
  - intros [-> ->]. reflexivity.
Qed.

(** The value the cache holds for key [k] after [events], read off the
    events: the last CREATE or UPDATE of that key, unless a DELETE of it
    came later; [init] when no event touched the key. *)
Fixpoint last_write (hide : bool) (k : string) (events : list Event)
    (init : option Obj) : option Obj :=
  match events with
  | [] => init
  | mkEvent t (Unstructured o) :: es =>
      let m := prepared hide o in
      let cur :=
        if String.eqb (cache_objectKey m) k then
          match t with
          | Added | Modified => Some m
          | Deleted => None
          | _ => init
          end
        else init in
      last_write hide k es cur
  | mkEvent _ OtherObject :: es => last_write hide k es init
  end.

Lemma watcher_loop_cons (hide : bool) (cache : resourceCache) (e : Event) (es : list Event) :
  watcher_loop hide cache (e :: es)
  = let '(c1, o1) := watcher_step hide cache e in
    let '(c2, o2) := watcher_loop hide c1 es in
    (c2, app o1 o2).
Proof. reflexivity. Qed.

(** X2: after a sequence of events the cache of a watch holds, for every
    key, the object of the last CREATE or UPDATE of that key, or nothing
    if a DELETE of it came later; keys no event touched keep their value. *)
Theorem watcher_cache_is_last_write (hide : bool) (cache : resourceCache)
    (events : list Event) (k : string) :
  fst (watcher_loop hide cache events) !! k = last_write hide k events (cache !! k).
Proof.
  revert cache. induction events as [|[t eo] es IH]; intros cache; [reflexivity|].
  rewrite watcher_loop_cons.
  destruct eo as [o|].
  - destruct (watcher_step hide cache (mkEvent t (Unstructured o))) as [c1 o1] eqn:E.
    rewrite watcher_step_unstructured in E.
    pose proof (IH c1) as IH1.
    destruct (watcher_loop hide c1 es) as [c2 o2]. cbn in IH1 |- *.
    rewrite IH1. f_equal. fold (prepared hide o).
    destruct (String.eqb_spec (cache_objectKey (prepared hide o)) k) as [<-|Hne];
      destruct t; injection E as <- _; unfold cache_Set, cache_Delete;
      rewrite ?lookup_insert_eq, ?lookup_delete_eq, ?lookup_insert_ne, ?lookup_delete_ne;
      done.
  - cbn [watcher_step ev_object last_write].
    pose proof (IH cache) as IH1.
    destruct (watcher_loop hide cache es) as [c2 o2]. exact IH1.
Qed.

Lemma watcher_loop_app (hide : bool) (cache : resourceCache) (xs ys : list Event) :
  watcher_loop hide cache (xs ++ ys)
  = let '(c1, o1) := watcher_loop hide cache xs in
    let '(c2, o2) := watcher_loop hide c1 ys in
    (c2, app o1 o2).
Proof.
  revert cache. induction xs as [|x xs IH]; intros cache; cbn.
  - destruct (watcher_loop hide cache ys). reflexivity.
  - destruct (watcher_step hide cache x) as [c1 o1].
    rewrite IH. destruct (watcher_loop hide c1 xs) as [c2 o2].
    destruct (watcher_loop hide c2 ys) as [c3 o3]. by rewrite app_assoc.
Qed.

(** X3: an UPDATE that follows the events [events] of a watch started
    with an empty cache prints a diff whose previous side is the object of
    the last CREATE or UPDATE of the same key among [events], or nothing
    if there was none or a DELETE of that key came later. *)
Theorem watcher_update_previous_is_last_write (hide : bool) (events : list Event) (o : Obj) :
  let m := prepared hide o in
  last (snd (watcher hide (events ++ [mkEvent Modified (Unstructured o)])))
  = Some (BUpdate (watcher_key m) (last_write hide (cache_objectKey m) events None) m).
Proof.
  cbn zeta. unfold watcher. rewrite watcher_loop_app.
  pose proof (watcher_cache_is_last_write hide ∅ events (cache_objectKey (prepared hide o))) as H.
  destruct (watcher_loop hide ∅ events) as [c1 o1]. cbn in H |- *.
  rewrite last_snoc. change (if hide then SetManagedFields_nil o else o) with (prepared hide o).
  unfold cache_Get. rewrite H, lookup_empty. reflexivity.
Qed.

(** Events that print a block: CREATE, UPDATE and DELETE of an
    unstructured object. *)
Definition prints_block (e : Event) : bool :=
  match e with
  | mkEvent (Added | Modified | Deleted) (Unstructured _) => true
  | _ => false
  end.

(** X4: a watch prints one block per CREATE, UPDATE or DELETE event of an
    unstructured object and nothing for the other events (bookmarks,
    errors, objects that are not unstructured). *)
Theorem watcher_one_block_per_event (hide : bool) (cache : resourceCache)
    (events : list Event) :
  length (snd (watcher_loop hide cache events)) = length (List.filter prints_block events).
Proof.
  revert cache. induction events as [|[t eo] es IH]; intros cache; [reflexivity|].
  rewrite watcher_loop_cons.
  destruct (watcher_step hide cache (mkEvent t eo)) as [c1 o1] eqn:E.
  specialize (IH c1). destruct (watcher_loop hide c1 es) as [c2 o2]. cbn [snd] in IH |- *.
  rewrite length_app, IH.
  destruct eo as [o|]; [rewrite watcher_step_unstructured in E | cbn in E];
    destruct t; injection E as <- <-; reflexivity.
Qed.

End WatcherFacts.

(* ------------------------------------------------------------------ *)
(** ** Further properties of the cache at the pointer level *)

Module HeapProps.
Import Heap.

(** X5: after [Set(obj)], [Get] with the same object returns a new copy
    of the value [obj] had when it was stored. *)
Theorem Set_then_Get (s s' : State) (p : loc) (o : Obj) :
  Set_ s p = Some s' -> heap s !! p = Some o ->
  exists s'' l, Get s' p = Some (s'', Some l) /\ heap s'' !! l = Some o /\
    heap s' !! l = None.
Proof.
  intros HS Hp.
  destruct (HeapFacts.Set_Some s p s' HS) as (o0 & Hp0 & ->).
  rewrite Hp in Hp0. injection Hp0 as <-.
  set (f := fresh (dom (heap s))).
  assert (Hne : p <> f).
  { intros ->. apply (is_fresh (dom (heap s))). apply elem_of_dom. by eexists. }
  set (h' := <[f := o]> (heap s)).
  exists (mkState (<[fresh (dom h') := o]> h') (<[cache_objectKey o := f]> (resources s))),
         (fresh (dom h')).
  unfold Get, DeepCopy, alloc; cbn.
  assert (Hp' : h' !! p = Some o) by (unfold h'; by rewrite lookup_insert_ne).
  rewrite Hp'; cbn. rewrite lookup_insert_eq; cbn.
  assert (Hf : h' !! f = Some o) by (unfold h'; by rewrite lookup_insert_eq).
  rewrite Hf; cbn. split; [reflexivity|]. split; [apply lookup_insert_eq|].
  apply not_elem_of_dom, is_fresh.
Qed.

(** X6: after [Delete(obj)], [Get] with the same object returns nil and
    changes nothing. *)
Theorem Delete_then_Get (s s' : State) (p : loc) :
  Delete s p = Some s' -> Get s' p = Some (s', None).
Proof.
  unfold Delete. destruct (heap s !! p) as [o|] eqn:Hp; cbn; [|discriminate].
  intros [= <-]. unfold Get; cbn. rewrite Hp; cbn. by rewrite lookup_delete_eq.
Qed.

End HeapProps.

(* ------------------------------------------------------------------ *)
(** ** [difflib.SplitLines] as used by [diffObjects] *)

Module SplitLinesFacts.
Import WatcherFacts.

Definition concat_strings (xs : list string) : string :=
  foldr (fun x acc => x +:+ acc) EmptyString xs.

Definition ends_with_nl (x : string) : Prop := exists t, x = t +:+ nl.

Lemma concat_foldr (init : list string) (t : string) :
  foldr (fun x acc => x +:+ acc) t init = concat_strings init +:+ t.
Proof.
  induction init as [|x init IH]; [reflexivity|].
  cbn. rewrite IH. unfold concat_strings. by rewrite string_app_assoc.
Qed.

Lemma split_after_nl_spec (s acc : string) :
  exists init last,
    split_after_nl s acc = app init [last] /\
    Forall ends_with_nl init /\
    concat_strings init +:+ last = acc +:+ s.
Proof.
  revert acc. induction s as [|c s IH]; intros acc.
  - exists [], acc. split; [reflexivity|]. split; [constructor|].
    cbn. by rewrite string_app_nil_r.
  - cbn [split_after_nl].
    destruct (Ascii.eqb c "010"%char) eqn:Hc.
    + apply Ascii.eqb_eq in Hc as ->.
      destruct (IH EmptyString) as (init & last & -> & Hf & Hcat).
      exists ((acc +:+ String "010"%char EmptyString) :: init), last.
      split; [reflexivity|]. split; [constructor; [by eexists|exact Hf]|].
      change (concat_strings ((acc +:+ String "010"%char EmptyString) :: init))
        with ((acc +:+ String "010"%char EmptyString) +:+ concat_strings init).
      rewrite string_app_assoc, Hcat, string_app_assoc. reflexivity.
    + destruct (IH (acc +:+ String c EmptyString)) as (init & last & -> & Hf & Hcat).
      exists init, last. split; [reflexivity|]. split; [exact Hf|].
      rewrite Hcat, string_app_assoc. reflexivity.
Qed.

(** X8: [SplitLines] as called by [diffObjects] cuts a text into lines
    that each end with a newline and whose concatenation is the text
    followed by one newline. *)
Theorem SplitLines_lines (s : string) :
  Forall ends_with_nl (SplitLines s) /\ concat_strings (SplitLines s) = s +:+ nl.
Proof.
  destruct (split_after_nl_spec s EmptyString) as (init & last & Hs & Hf & Hcat).
  unfold SplitLines. rewrite Hs, rev_unit, rev_involutive.
  split.
  - apply Forall_app; split; [exact Hf|]. constructor; [by eexists|constructor].
  - cbn in Hcat. unfold concat_strings. rewrite foldr_app. cbn.
    rewrite string_app_nil_r, concat_foldr, <- string_app_assoc.
    fold (concat_strings init). by rewrite Hcat.
Qed.

End SplitLinesFacts.

(* ------------------------------------------------------------------ *)
(** ** Further properties of the transform pipeline and the renderer *)

Module DiffProps.
Import Diff DiffFacts DiffClaims WatcherFacts.

(** Computations that neither log nor print. *)
Definition world_unchanged {A} (m : M A) : Prop := forall w, fst (m w) = w.

Lemma world_unchanged_ret {A} (a : A) : world_unchanged (ret a).
Proof. intros w. reflexivity. Qed.

Lemma world_unchanged_check {A} p (r : result A) : world_unchanged (check p r).
Proof. intros w. by destruct r. Qed.

Lemma world_unchanged_bind {A B} (m : M A) (f : A -> M B) :
  world_unchanged m -> (forall a, world_unchanged (f a)) -> world_unchanged (bind m f).
Proof.
  intros Hm Hf w. unfold bind. specialize (Hm w).
  destruct (m w) as [w1 [a|e]]; cbn in *; subst; [apply Hf | reflexivity].
Qed.

(** Computations whose errors all satisfy [P]. *)
Definition errors_satisfy {A} (P : string -> Prop) (m : M A) : Prop :=
  forall w w' e, m w = (w', Err e) -> P e.

Lemma errors_satisfy_ret {A} P (a : A) : errors_satisfy P (ret a).
Proof. intros w w' e [=]. Qed.

Lemma errors_satisfy_warn P msg : errors_satisfy P (warn msg).
Proof. intros w w' e [=]. Qed.

Lemma errors_satisfy_bind {A B} P (m : M A) (f : A -> M B) :
  errors_satisfy P m -> (forall a, errors_satisfy P (f a)) -> errors_satisfy P (bind m f).
Proof.
  intros Hm Hf w w' e. unfold bind.
  destruct (m w) as [w1 [a|e1]] eqn:E; [apply Hf | intros [= _ <-]; exact (Hm _ _ _ E)].
Qed.

(** The prefixes of the errors [preprocess] returns. *)
Definition preprocess_error_prefixes : list string :=
  ["failed to encode object as JSON: ";
   "failed to re-decode object from JSON: ";
   "failed to encode JSON path result as JSON: ";
   "failed to re-decode JSON path result from JSON: ";
   "failed to apply exclude expression ";
   "failed to encode exclude expression result as JSON: ";
   "failed to encode object as YAML: "].

Definition starts_with_one_of (ps : list string) (e : string) : Prop :=
  exists p rest, In p ps /\ e = p +:+ rest.

Lemma errors_satisfy_check {A} p (r : result A) :
  In p preprocess_error_prefixes ->
  errors_satisfy (starts_with_one_of preprocess_error_prefixes) (check p r).
Proof.
  intros Hp w w' e. destruct r; cbn; [discriminate|]. intros [= _ <-]. by exists p, e0.
Qed.

Section Pipeline.
Context {L : Libraries}.

Lemma remove_paths_error (ps : list ExcludePath) (d : Doc) (e : string) :
  remove_paths ps d = Err e ->
  exists p rest, In p ps /\
    e = "failed to apply exclude expression " +:+ show_path p +:+ ": " +:+ rest.
Proof.
  revert d. induction ps as [|p ps IH]; intros d; cbn; [discriminate|].
  destruct (RemovePath d p) as [d'|e'].
  - intros H. destruct (IH d' H) as (p' & rest & Hin & ->). exists p', rest. auto.
  - intros [= <-]. exists p, e'. auto.
Qed.

(** X9: every error [preprocess] returns starts with one of the prefixes
    of its [fmt.Errorf] calls, which say which step failed. *)
Theorem preprocess_error_messages (opt : Options) (obj : option Obj) (w w' : World) (e : string) :
  preprocess opt obj w = (w', Err e) ->
  starts_with_one_of preprocess_error_prefixes e.
Proof.
  revert w w' e. change (errors_satisfy (starts_with_one_of preprocess_error_prefixes)
                          (preprocess opt obj)).
  assert (Hc : forall A p (r : result A), In p preprocess_error_prefixes ->
            errors_satisfy (starts_with_one_of preprocess_error_prefixes) (check p r))
    by (intros; by apply errors_satisfy_check).
  destruct obj as [o|]; [|apply errors_satisfy_ret].
  apply errors_satisfy_bind.
  { apply errors_satisfy_bind; [apply Hc; cbn; tauto|].
    intros; apply errors_satisfy_bind; [apply Hc; cbn; tauto|intros; apply errors_satisfy_ret]. }
  intros [g go]. apply errors_satisfy_bind.
  { cbn. destruct (compiledJSONPath opt) as [jp|]; [|apply errors_satisfy_ret].
    destruct (FindResults jp go) as [[|[|r0 rs] rss]|e1]; try apply errors_satisfy_ret.
    - apply errors_satisfy_bind; [apply Hc; cbn; tauto|].
      intros; apply errors_satisfy_bind; [apply Hc; cbn; tauto|intros; apply errors_satisfy_ret].
    - apply errors_satisfy_bind; [apply errors_satisfy_warn|intros; apply errors_satisfy_ret]. }
  intros [g' go']. apply errors_satisfy_bind; [|intros; apply Hc; cbn; tauto].
  unfold preprocess_exclude. destruct (parsedExcludePaths opt) as [|p ps]; [apply errors_satisfy_ret|].
  apply errors_satisfy_bind; [|intros; apply Hc; cbn; tauto].
  intros w1 w2 e1. unfold check. destruct (remove_paths (p :: ps) go') as [d|e2] eqn:E;
    [discriminate|]. intros [= _ <-].
  destruct (remove_paths_error _ _ _ E) as (p' & rest & _ & ->).
  exists "failed to apply exclude expression ", (show_path p' +:+ ": " +:+ rest).
  cbn; tauto.
Qed.

Lemma select_world (opt : Options) st w :
  fst (preprocess_select opt st w) = w \/
  exists jp e, compiledJSONPath opt = Some jp /\ FindResults jp (snd st) = Err e /\
    preprocess_select opt st w
    = (mkWorld (app (logs w) ["Failed to apply JSON path: " +:+ e]) (stdout w), Ok st).
Proof.
  destruct st as [g go]. unfold preprocess_select.
  destruct (compiledJSONPath opt) as [jp|]; [|left; reflexivity].
  destruct (FindResults jp go) as [[|[|r0 rs] rss]|e] eqn:HF.
  - left; reflexivity.
  - left; reflexivity.
  - left. apply world_unchanged_bind; [apply world_unchanged_check|].
    intros; apply world_unchanged_bind; [apply world_unchanged_check|intros; apply world_unchanged_ret].
  - right. exists jp, e. auto.
Qed.

(** The entries [preprocess] logs, read off the object: the warning
    about the configured JSON path when its evaluation on the decoded
    object fails, and nothing otherwise. *)
Definition jsonpath_warning (opt : Options) (obj : option Obj) : list string :=
  match obj with
  | None => []
  | Some o =>
      match json_Marshal_obj o with
      | Err _ => []
      | Ok g =>
          match json_Unmarshal None g with
          | Err _ => []
          | Ok d =>
              match compiledJSONPath opt with
              | None => []
              | Some jp =>
                  match FindResults jp d with
                  | Err e => ["Failed to apply JSON path: " +:+ e]
                  | Ok _ => []
                  end
              end
          end
      end
  end.

(** X10: [preprocess] never prints, and logs exactly one entry, the
    warning about the JSON path, when the configured JSON path fails to
    evaluate on the decoded object; otherwise (no JSON path, a JSON path
    that evaluates, or an encoding or decoding error before it) it logs
    nothing. *)
Theorem preprocess_effects (opt : Options) (obj : option Obj) (w : World) :
  fst (preprocess opt obj w)
  = mkWorld (app (logs w) (jsonpath_warning opt obj)) (stdout w).
Proof.
  destruct obj as [o|]; [|destruct w; cbn; by rewrite app_nil_r].
  cbn [jsonpath_warning].
  destruct (json_Marshal_obj o) as [g|e] eqn:Hm.
  2: { unfold preprocess, preprocess_normalize, bind at 1 2, check at 1.
       rewrite Hm. destruct w; cbn; by rewrite app_nil_r. }
  destruct (json_Unmarshal None g) as [d|e] eqn:Hu.
  2: { unfold preprocess, preprocess_normalize, bind at 1 2, check at 1.
       rewrite Hm. unfold bind, check. rewrite Hu. destruct w; cbn; by rewrite app_nil_r. }
  assert (Hn : preprocess_normalize o w = (w, Ok (g, d))).
  { unfold preprocess_normalize, bind, check. by rewrite Hm, Hu. }
  rewrite (preprocess_after_normalize _ _ _ _ _ Hn).
  unfold bind at 1.
  destruct (select_world opt (g, d) w) as [Hs|(jp & e & Hjp & HF & Hs)].
  - assert (Hnw : match compiledJSONPath opt with
                  | Some jp => match FindResults jp d with
                               | Err e => ["Failed to apply JSON path: " +:+ e]
                               | Ok _ => [] end
                  | None => [] end = []).
    { destruct (compiledJSONPath opt) as [jp|] eqn:Hjp; [|reflexivity].
      destruct (FindResults jp d) as [r|e] eqn:HF; [reflexivity|].
      exfalso. unfold preprocess_select in Hs. rewrite Hjp, HF in Hs.
      destruct w as [lg out]. cbn in Hs. injection Hs as Hs.
      apply (f_equal (@length string)) in Hs. rewrite length_app in Hs. cbn in Hs. lia. }
    rewrite Hnw.
    destruct (preprocess_select opt (g, d) w) as [w2 [st'|e]]; cbn in Hs; subst w2.
    + rewrite exclude_yaml_world. destruct w; cbn. by rewrite app_nil_r.
    + destruct w; cbn. by rewrite app_nil_r.
  - rewrite Hjp. cbn in HF. rewrite HF, Hs. rewrite exclude_yaml_world. reflexivity.
Qed.

(** X11: when [preprocess] fails on the previous object, [PrintDiff]
    returns that error prefixed with ["failed to process previous object: "]
    without processing the current object or printing anything; when it
    fails on the current object, it returns that error prefixed with
    ["failed to process current object: "] and prints nothing. *)
Theorem PrintDiff_errors (opt : Options) (oldObj newObj : option Obj)
    (lastSeen now : Time) (w w1 : World) (e : string) :
  (preprocess opt oldObj w = (w1, Err e) ->
   PrintDiff opt oldObj newObj lastSeen now w
   = (w1, Err ("failed to process previous object: " +:+ e))) /\
  (forall w2 oldString,
   preprocess opt oldObj w = (w1, Ok oldString) ->
   preprocess opt newObj w1 = (w2, Err e) ->
   PrintDiff opt oldObj newObj lastSeen now w
   = (w2, Err ("failed to process current object: " +:+ e)) /\
   stdout w2 = stdout w).
Proof.
  split.
  - intros H. unfold PrintDiff. apply bind_Err. unfold wrap. by rewrite H.
  - intros w2 oldString H1 H2. split.
    + unfold PrintDiff. rewrite (bind_Ok _ _ _ _ _ (wrap_Ok _ _ _ _ _ H1)).
      apply bind_Err. unfold wrap. by rewrite H2.
    + pose proof (preprocess_keeps_stdout opt oldObj w) as S1.
      pose proof (preprocess_keeps_stdout opt newObj w1) as S2.
      rewrite H1 in S1. rewrite H2 in S2. cbn in S1, S2. congruence.
Qed.

(** X12: without a JSON path and exclude paths, [preprocess] returns the
    YAML conversion of the JSON encoding of the object: the map it decodes
    is only checked for errors, not used. *)
Theorem preprocess_plain (opt : Options) (o : Obj) (w : World) (g : string) (d : Doc) :
  compiledJSONPath opt = None -> parsedExcludePaths opt = [] ->
  json_Marshal_obj o = Ok g -> json_Unmarshal None g = Ok d ->
  preprocess opt (Some o) w = check "failed to encode object as YAML: " (JSONToYAML g) w.
Proof.
  intros Hj Hx Hm Hu.
  assert (Hn : preprocess_normalize o w = (w, Ok (g, d))).
  { unfold preprocess_normalize, bind, check. by rewrite Hm, Hu. }
  rewrite (preprocess_after_normalize _ _ _ _ _ Hn).
  assert (Hs : preprocess_select opt (g, d) w = (w, Ok (g, d)))
    by (unfold preprocess_select; by rewrite Hj).
  rewrite (bind_Ok _ _ _ _ _ Hs).
  assert (He : preprocess_exclude opt (g, d) w = (w, Ok g))
    by (unfold preprocess_exclude; by rewrite Hx).
  by rewrite (bind_Ok _ _ _ _ _ He).
Qed.

(** X13: with a JSON path that yields results and no exclude paths,
    [preprocess] returns the YAML conversion of the JSON encoding of the
    first value of the first result; the other values are ignored. *)
Theorem preprocess_selected (opt : Options) (o : Obj) (w : World) (g : string) (d : Doc)
    (jp : JSONPath) (r0 : Doc) (rs : list Doc) (rss : list (list Doc))
    (g' : string) (d' : Doc) :
  compiledJSONPath opt = Some jp -> parsedExcludePaths opt = [] ->
  json_Marshal_obj o = Ok g -> json_Unmarshal None g = Ok d ->
  FindResults jp d = Ok ((r0 :: rs) :: rss) ->
  json_Marshal r0 = Ok g' -> json_Unmarshal (Some d) g' = Ok d' ->
  preprocess opt (Some o) w = check "failed to encode object as YAML: " (JSONToYAML g') w.
Proof.
  intros Hj Hx Hm Hu HF Hm' Hu'.
  assert (Hn : preprocess_normalize o w = (w, Ok (g, d))).
  { unfold preprocess_normalize, bind, check. by rewrite Hm, Hu. }
  rewrite (preprocess_after_normalize _ _ _ _ _ Hn).
  assert (Hs : preprocess_select opt (g, d) w = (w, Ok (g', d'))).
  { unfold preprocess_select. rewrite Hj, HF. unfold bind, check. by rewrite Hm', Hu'. }
  rewrite (bind_Ok _ _ _ _ _ Hs).
  assert (He : preprocess_exclude opt (g', d') w = (w, Ok g'))
    by (unfold preprocess_exclude; by rewrite Hx).
  by rewrite (bind_Ok _ _ _ _ _ He).
Qed.

(** X14: a JSON path that evaluates without error but yields no value
    (no result, or an empty first result) leaves the document as it is and
    logs nothing: [preprocess] behaves as without a JSON path. *)
Theorem preprocess_selector_no_match (opt : Options) (o : Obj) (w w1 : World)
    (st : string * Doc) (jp : JSONPath) (rss : list (list Doc)) :
  preprocess_normalize o w = (w1, Ok st) ->
  compiledJSONPath opt = Some jp ->
  (FindResults jp (snd st) = Ok [] \/ FindResults jp (snd st) = Ok ([] :: rss)) ->
  preprocess opt (Some o) w = preprocess (without_selector opt) (Some o) w.
Proof.
  intros Hn Hj HF. destruct st as [g d]. cbn in HF.
  rewrite !(preprocess_after_normalize _ _ _ _ _ Hn).
  assert (Hs : preprocess_select opt (g, d) w1 = (w1, Ok (g, d))).
  { unfold preprocess_select. rewrite Hj. by destruct HF as [-> | ->]. }
  assert (Hs' : preprocess_select (without_selector opt) (g, d) w1 = (w1, Ok (g, d)))
    by reflexivity.
  rewrite (bind_Ok _ _ _ _ _ Hs), (bind_Ok _ _ _ _ _ Hs'). reflexivity.
Qed.

(** X15: exclude paths are removed one after the other, in order:
    removing [ps1 ++ ps2] removes [ps1] and then [ps2] from the result,
    and the first failure stops the loop with its error. *)
Theorem remove_paths_app (ps1 ps2 : list ExcludePath) (d : Doc) :
  remove_paths (ps1 ++ ps2) d
  = match remove_paths ps1 d with
    | Ok d' => remove_paths ps2 d'
    | Err e => Err e
    end.
Proof.
  revert d. induction ps1 as [|p ps IH]; intros d; cbn; [reflexivity|].
  destruct (RemovePath d p); [apply IH | reflexivity].
Qed.

End Pipeline.
End DiffProps.

(* ------------------------------------------------------------------ *)
(** ** Start-up: [main] and [getDynamicInterface] *)

Module Main.
Import Diff.

(** [options] after [pflag.Parse()] (the parsed selector is kept apart). *)
Record options := mkOptions {
  kubeconfig : string;
  opt_namespace : string;
  labels : string;
  hideManagedFields : bool;
  verbose : bool
}.

(** The defaults [main] gives to [pflag]. *)
Definition default_options : options :=
  {| kubeconfig := ""; opt_namespace := "default"; labels := "";
     hideManagedFields := true; verbose := false |}.

(** [strings.Split(s, ",")]. *)
Fixpoint split_comma (s acc : string) : list string :=
  match s with
  | EmptyString => [acc]
  | String c s' =>
      if Ascii.eqb c ","%char then acc :: split_comma s' EmptyString
      else split_comma s' (acc +:+ String c EmptyString)
  end.

(** What the client libraries provide to [main]. *)
Class Cluster := {
  Selector : Type;
  Config : Type;
  Mapper : Type;
  GVK : Type;
  GVResource : Type;
  (** [os.Getenv("KUBECONFIG")] and [strings.ToLower]. *)
  Getenv_KUBECONFIG : string;
  ToLower : string -> string;
  (** [labels.Parse]. *)
  labels_Parse : string -> result Selector;
  (** [clientcmd.BuildConfigFromFlags("", kubeconfig)],
      [kubernetes.NewForConfig], [getRESTMapper], [dynamic.NewForConfig]. *)
  BuildConfigFromFlags : string -> result Config;
  kubernetes_NewForConfig : Config -> result unit;
  getRESTMapper : Config -> result Mapper;
  dynamic_NewForConfig : Config -> result unit;
  (** [mapper.KindFor(schema.GroupVersionResource{Resource: r})],
      [gvk.String()] and [gvk.Kind]. *)
  KindFor : Mapper -> string -> result GVK;
  gvk_String : GVK -> string;
  gvk_Kind : GVK -> string;
  (** [mapper.RESTMapping(gvk.GroupKind(), gvk.Version)]: the resource and
      whether its scope is [meta.RESTScopeNameNamespace]. *)
  RESTMapping : Mapper -> GVK -> result (GVResource * bool);
  (** [dr.Watch(ctx, v1.ListOptions{LabelSelector: s})] on the resource
      and optional namespace. *)
  Watch : GVResource * option string -> string -> result unit;
  (** [%q] formatting. *)
  go_quote : string -> string
}.

(** A started [watcher] goroutine: the watched resource, its namespace
    (none for cluster-wide resources), the label selector of the watch and
    the [hideManagedFields] flag it runs with. *)
Record WatchStarted {C : Cluster} := mkWatchStarted {
  ws_resource : GVResource;
  ws_namespace : option string;
  ws_labelSelector : string;
  ws_hideManagedFields : bool
}.
Arguments WatchStarted : clear implicits.
Arguments mkWatchStarted {C}.

Section Main.
Context {C : Cluster}.

(** [log.Fatal*(prefix, err)] ends [main] with a message. *)
Definition fatal_on {A} (prefix : string) (r : result A) : result A :=
  match r with
  | Ok a => Ok a
  | Err e => Err (prefix +:+ e)
  end.

Definition and_then {A B} (r : result A) (f : A -> result B) : result B :=
  match r with
  | Ok a => f a
  | Err e => Err e
  end.

(** [getDynamicInterface]: the resource, in [namespace] when namespaced. *)
Definition getDynamicInterface (gvk : GVK) (namespace : string) (mapper : Mapper)
    : result (GVResource * option string) :=
  match RESTMapping mapper gvk with
  | Err e => Err ("failed to determine mapping: " +:+ e)
  | Ok (resource, namespaced) =>
      if namespaced then Ok (resource, Some namespace) else Ok (resource, None)
  end.

(** The loop resolving the resource kinds into the [kinds] map. *)
Fixpoint resolve_kinds (mapper : Mapper) (resourceKinds : list string)
    (kinds : gmap string GVK) : result (gmap string GVK) :=
  match resourceKinds with
  | [] => Ok kinds
  | k :: ks =>
      match KindFor mapper k with
      | Err e => Err ("Unknown resource kind " +:+ go_quote k +:+ ": " +:+ e)
      | Ok gvk => resolve_kinds mapper ks (<[gvk_String gvk := gvk]> kinds)
      end
  end.

(** The loop setting up one watch per entry of [kinds] (in the map's
    iteration order). *)
Fixpoint start_watches (opt : options) (mapper : Mapper) (gvks : list GVK)
    : result (list (WatchStarted C)) :=
  match gvks with
  | [] => Ok []
  | gvk :: rest =>
      and_then (fatal_on ("Failed to create dynamic interface for " +:+ go_quote (gvk_Kind gvk)
                          +:+ " resources: ")
                 (getDynamicInterface gvk (opt_namespace opt) mapper)) (fun dr =>
      and_then (fatal_on ("Failed to create watch for " +:+ go_quote (gvk_Kind gvk)
                          +:+ " resources: ")
                 (Watch dr (labels opt))) (fun _ =>
      and_then (start_watches opt mapper rest) (fun ws =>
      Ok (mkWatchStarted (fst dr) (snd dr) (labels opt) (hideManagedFields opt) :: ws))))
  end.

(** [main] after flag parsing, up to [wg.Wait()]: the watches it starts, or
    the message of the [log.Fatal] that ends it. *)
Definition main (opt0 : options) (args : list string) : result (list (WatchStarted C)) :=
  let opt := if String.eqb (kubeconfig opt0) "" then
               {| kubeconfig := Getenv_KUBECONFIG; opt_namespace := opt_namespace opt0;
                  labels := labels opt0; hideManagedFields := hideManagedFields opt0;
                  verbose := verbose opt0 |}
             else opt0 in
  match args with
  | [] => Err "No resource kind and name given."
  | arg0 :: resourceNames =>
      let resourceKinds := split_comma (ToLower arg0) EmptyString in
      and_then (if String.eqb (labels opt) "" then Ok None
                else fatal_on "Invalid label selector: "
                       (and_then (labels_Parse (labels opt)) (fun s => Ok (Some s))))
      (fun selector =>
      let hasNames := negb (Nat.eqb (length resourceNames) 0) in
      if hasNames && bool_decide (is_Some selector) then
        Err "Cannot specify both resource names and a label selector at the same time."
      else
      and_then (fatal_on "Failed to create Kubernetes client: "
                 (BuildConfigFromFlags (kubeconfig opt))) (fun config =>
      and_then (fatal_on "Failed to create Kubernetes clientset: "
                 (kubernetes_NewForConfig config)) (fun _ =>
      and_then (fatal_on "Failed to create Kubernetes REST mapper: "
                 (getRESTMapper config)) (fun mapper =>
      and_then (fatal_on "Failed to create dynamic Kubernetes client: "
                 (dynamic_NewForConfig config)) (fun _ =>
      and_then (resolve_kinds mapper resourceKinds ∅) (fun kinds =>
      start_watches opt mapper (map snd (map_to_list kinds))))))))
  end.

End Main.
End Main.

Module MainProps.
Import Diff Main.

Section Props.
Context {C : Cluster}.

Lemma and_then_Ok {A B} (r : result A) (f : A -> result B) b :
  and_then r f = Ok b -> exists a, r = Ok a /\ f a = Ok b.
Proof. destruct r as [a|e]; cbn; [eauto|discriminate]. Qed.

Lemma fatal_on_Ok {A} p (r : result A) a : fatal_on p r = Ok a -> r = Ok a.
Proof. destruct r; cbn; congruence. Qed.

(** [main] once the kubeconfig default is applied. *)
Definition with_kubeconfig (opt0 : options) : options :=
  if String.eqb (kubeconfig opt0) "" then
    {| kubeconfig := Getenv_KUBECONFIG; opt_namespace := opt_namespace opt0;
       labels := labels opt0; hideManagedFields := hideManagedFields opt0;
       verbose := verbose opt0 |}
  else opt0.

Lemma with_kubeconfig_fields (opt0 : options) :
  labels (with_kubeconfig opt0) = labels opt0 /\
  opt_namespace (with_kubeconfig opt0) = opt_namespace opt0 /\
  hideManagedFields (with_kubeconfig opt0) = hideManagedFields opt0.
Proof. unfold with_kubeconfig. by destruct (String.eqb _ _). Qed.

Lemma main_Ok (opt0 : options) (args : list string) (ws : list (WatchStarted C)) :
  main opt0 args = Ok ws ->
  exists arg0 names mapper kinds,
    args = arg0 :: names /\
    resolve_kinds mapper (split_comma (ToLower arg0) EmptyString) ∅ = Ok kinds /\
    start_watches (with_kubeconfig opt0) mapper (map snd (map_to_list kinds)) = Ok ws.
Proof.
  unfold main. fold (with_kubeconfig opt0). generalize (with_kubeconfig opt0) as opt.
  intros opt H. destruct args as [|arg0 names]; [discriminate|].
  apply and_then_Ok in H as (sel & _ & H).
  destruct (_ && _); [discriminate|].
  apply and_then_Ok in H as (config & _ & H).
  apply and_then_Ok in H as (u1 & _ & H).
  apply and_then_Ok in H as (mapper & _ & H).
  apply and_then_Ok in H as (u2 & _ & H).
  apply and_then_Ok in H as (kinds & Hk & H).
  exists arg0, names, mapper, kinds. auto.
Qed.

Lemma start_watches_Ok (opt : options) (mapper : Mapper) (gvks : list GVK)
    (ws : list (WatchStarted C)) :
  start_watches opt mapper gvks = Ok ws ->
  length ws = length gvks /\
  Forall (fun w => exists gvk namespaced,
            In gvk gvks /\
            RESTMapping mapper gvk = Ok (ws_resource w, namespaced) /\
            ws_namespace w = (if namespaced then Some (opt_namespace opt) else None) /\
            ws_labelSelector w = labels opt /\
            ws_hideManagedFields w = hideManagedFields opt) ws.
Proof.
  revert ws. induction gvks as [|gvk gvks IH]; intros ws H; cbn in H.
  - injection H as <-. split; [reflexivity|constructor].
  - apply and_then_Ok in H as (dr & Hdr & H). apply fatal_on_Ok in Hdr.
    apply and_then_Ok in H as (u & _ & H).
    apply and_then_Ok in H as (ws' & Hws' & H). injection H as <-.
    destruct (IH ws' Hws') as [Hlen Hall].
    split; [cbn; by rewrite Hlen|].
    constructor.
    + unfold getDynamicInterface in Hdr.
      destruct (RESTMapping mapper gvk) as [[res nsd]|e] eqn:HR; [|discriminate].
      exists gvk, nsd. cbn. split; [by left|].
      destruct nsd; injection Hdr as <-; cbn; auto.
    + eapply Forall_impl; [exact Hall|]. cbn.
      intros w (g & nsd & Hin & Hrest). exists g, nsd. split; [by right|exact Hrest].
Qed.

Lemma resolve_kinds_keys (mapper : Mapper) (ks : list string) (m0 m : gmap string GVK) :
  resolve_kinds mapper ks m0 = Ok m ->
  forall s, is_Some (m !! s) <->
    is_Some (m0 !! s) \/
    exists k gvk, In k ks /\ KindFor mapper k = Ok gvk /\ gvk_String gvk = s.
Proof.
  revert m0. induction ks as [|k ks IH]; intros m0 H s; cbn in H.
  - injection H as <-. split; [auto|]. intros [Hs|(k & g & [] & _)]; exact Hs.
  - destruct (KindFor mapper k) as [g|e] eqn:Hk; [|discriminate].
    rewrite (IH _ H s). split.
    + intros [Hs|(k' & g' & Hin & Hk' & Hs)].
      * destruct (decide (gvk_String g = s)) as [<-|Hne].
        -- right. exists k, g. split; [by left|auto].
        -- left. by rewrite lookup_insert_ne in Hs.
      * right. exists k', g'. split; [by right|auto].
    + intros [Hs|(k' & g' & [<-|Hin] & Hk' & Hs)].
      * left. destruct (decide (gvk_String g = s)) as [<-|Hne].
        -- rewrite lookup_insert_eq. by eexists.
        -- by rewrite lookup_insert_ne.
      * left. rewrite Hk in Hk'. injection Hk' as <-. subst s.
        rewrite lookup_insert_eq. by eexists.
      * right. exists k', g'. auto.
Qed.

(** X16: [main] refuses its arguments before it contacts the cluster:
    without arguments it stops with ["No resource kind and name given."];
    with an invalid label selector it stops with ["Invalid label selector: "]
    and the parser's error; with both resource names and a label selector
    it stops with ["Cannot specify both resource names and a label selector
    at the same time."]. *)
Theorem main_argument_errors (opt0 : options) :
  main opt0 [] = Err "No resource kind and name given." /\
  (forall arg0 names e,
     labels opt0 <> "" -> labels_Parse (labels opt0) = Err e ->
     main opt0 (arg0 :: names) = Err ("Invalid label selector: " +:+ e)) /\
  (forall arg0 name names s,
     labels opt0 <> "" -> labels_Parse (labels opt0) = Ok s ->
     main opt0 (arg0 :: name :: names)
     = Err "Cannot specify both resource names and a label selector at the same time.").
Proof.
  destruct (with_kubeconfig_fields opt0) as (Hl & _ & _).
  split; [reflexivity|]. split.
  - intros arg0 names e Hne He. unfold main. fold (with_kubeconfig opt0).
    rewrite Hl. apply String.eqb_neq in Hne. rewrite Hne, He. reflexivity.
  - intros arg0 name names s Hne Hs. unfold main. fold (with_kubeconfig opt0).
    rewrite Hl. apply String.eqb_neq in Hne. rewrite Hne, Hs. reflexivity.
Qed.

(** X17: without a label selector the resource names given after the
    kinds play no part: [main] starts the same watches (or fails the same
    way) as with the kinds alone; the watches are never restricted to the
    named objects. *)
Theorem main_ignores_resource_names (opt0 : options) (arg0 : string) (names : list string) :
  labels opt0 = "" -> main opt0 (arg0 :: names) = main opt0 [arg0].
Proof.
  intros Hl. destruct (with_kubeconfig_fields opt0) as (Hl' & _ & _).
  unfold main. fold (with_kubeconfig opt0). rewrite Hl', Hl. cbn.
  by destruct (Nat.eqb (length names) 0).
Qed.

(** X18: every watch [main] starts uses the label selector string and the
    managed-fields flag of the options, and is confined to the namespace
    of the options exactly when the REST mapping of its kind is
    namespaced; cluster-wide kinds are watched in all namespaces. *)
Theorem main_watch_settings (opt0 : options) (args : list string) (ws : list (WatchStarted C)) :
  main opt0 args = Ok ws ->
  exists mapper,
    Forall (fun w => exists gvk namespaced,
              RESTMapping mapper gvk = Ok (ws_resource w, namespaced) /\
              ws_namespace w = (if namespaced then Some (opt_namespace opt0) else None) /\
              ws_labelSelector w = labels opt0 /\
              ws_hideManagedFields w = hideManagedFields opt0) ws.
Proof.
  intros H. destruct (main_Ok _ _ _ H) as (arg0 & names & mapper & kinds & _ & _ & Hs).
  destruct (start_watches_Ok _ _ _ _ Hs) as [_ Hall].
  destruct (with_kubeconfig_fields opt0) as (Hl & Hn & Hh).
  exists mapper. eapply Forall_impl; [exact Hall|].
  intros w (g & nsd & _ & HR & Hns & Hls & Hhm). exists g, nsd.
  rewrite <- Hl, <- Hn, <- Hh. auto.
Qed.

(** X19: [main] starts one watch per distinct [gvk.String()] among the
    resolved kinds of its comma-separated first argument: a kind named
    twice, or under two names of the same kind, is watched once. *)
Theorem main_one_watch_per_kind (opt0 : options) (args : list string) (ws : list (WatchStarted C)) :
  main opt0 args = Ok ws ->
  exists arg0 names mapper (kinds : gmap string GVK),
    args = arg0 :: names /\
    length ws = size kinds /\
    forall s, is_Some (kinds !! s) <->
      exists k gvk, In k (split_comma (ToLower arg0) EmptyString) /\
        KindFor mapper k = Ok gvk /\ gvk_String gvk = s.
Proof.
  intros H. destruct (main_Ok _ _ _ H) as (arg0 & names & mapper & kinds & -> & Hk & Hs).
  exists arg0, names, mapper, kinds. split; [reflexivity|]. split.
  - destruct (start_watches_Ok _ _ _ _ Hs) as [Hlen _].
    by rewrite Hlen, length_map, length_map_to_list.
  - intros s. rewrite (resolve_kinds_keys _ _ _ _ Hk s), lookup_empty.
    split; [intros [[? [=]]|Hs']; exact Hs' | auto].
Qed.

(** X20: resolving the kinds succeeds exactly when every listed kind is
    known to the REST mapper; otherwise [main] stops with ["Unknown
    resource kind "], the quoted name of the first unknown kind and the
    mapper's error. *)
Theorem resolve_kinds_all_known (mapper : Mapper) (ks : list string) (m0 : gmap string GVK) :
  ((exists m, resolve_kinds mapper ks m0 = Ok m) <->
   Forall (fun k => exists gvk, KindFor mapper k = Ok gvk) ks) /\
  (forall e, resolve_kinds mapper ks m0 = Err e ->
   exists k e', In k ks /\ KindFor mapper k = Err e' /\
     e = "Unknown resource kind " +:+ go_quote k +:+ ": " +:+ e').
Proof.
  revert m0. induction ks as [|k ks IH]; intros m0; cbn.
  - split; [split; [constructor|eauto]|discriminate].
  - destruct (KindFor mapper k) as [g|e0] eqn:Hk.
    + destruct (IH (<[gvk_String g := g]> m0)) as [[IH1 IH2] IH3]. split.
      * split.
        -- intros Hm. constructor; [eauto|]. by apply IH1.
        -- intros Hall. apply IH2. by inversion Hall.
      * intros e He. destruct (IH3 e He) as (k' & e' & Hin & rest). exists k', e'. auto.
    + split.
      * split; [intros [m [=]]|]. intros Hall. inversion Hall as [|? ? [g Hg] _].
        congruence.
      * intros e [= <-]. exists k, e0. auto.
Qed.

End Props.
End MainProps.

(* ------------------------------------------------------------------ *)
(** ** Concrete runs of the further properties *)

Module FurtherSamples.
Import Diff WatcherFacts DiffProps.

(** The cache before [Set] of [default/nginx]: only the caller's object,
    at pointer 1. *)
Definition heap_before_set : Heap.State :=
  Heap.mkState {[1%positive := nginx_v1]} ∅.

(** X1 (witness). *)
Lemma cache_objectKey_identity_witness :
  has_slash (namespace nginx_v1) = false /\ has_slash (namespace nginx_v2) = false /\
  (cache_objectKey nginx_v1 = cache_objectKey nginx_v2 <->
   namespace nginx_v1 = namespace nginx_v2 /\ name nginx_v1 = name nginx_v2).
Proof.
  split; [reflexivity|]. split; [reflexivity|].
  apply (WatcherFacts.cache_objectKey_identity nginx_v1 nginx_v2); reflexivity.
Defined.

(** X5 (witness). *)
Lemma Set_then_Get_witness :
  Heap.Set_ heap_before_set 1%positive = Some heap_sample /\
  Heap.heap heap_before_set !! 1%positive = Some nginx_v1 /\
  exists s'' l, Heap.Get heap_sample 1%positive = Some (s'', Some l) /\
    Heap.heap s'' !! l = Some nginx_v1 /\ Heap.heap heap_sample !! l = None.
Proof.
  assert (HS : Heap.Set_ heap_before_set 1%positive = Some heap_sample) by (vm_compute; reflexivity).
  assert (Hp : Heap.heap heap_before_set !! 1%positive = Some nginx_v1) by reflexivity.
  split; [exact HS|]. split; [exact Hp|].
  exact (HeapProps.Set_then_Get heap_before_set heap_sample 1%positive nginx_v1 HS Hp).
Defined.

(** X6 (witness). *)
Lemma Delete_then_Get_witness :
  Heap.Delete heap_sample 1%positive = Some (Heap.mkState (Heap.heap heap_sample) ∅) /\
  Heap.Get (Heap.mkState (Heap.heap heap_sample) ∅) 1%positive
  = Some (Heap.mkState (Heap.heap heap_sample) ∅, None).
Proof.
  assert (HD : Heap.Delete heap_sample 1%positive
               = Some (Heap.mkState (Heap.heap heap_sample) ∅)) by (vm_compute; reflexivity).
  split; [exact HD|].
  exact (HeapProps.Delete_then_Get heap_sample _ 1%positive HD).
Defined.

(** Libraries as in [Samples], where the JSON path ["{.missing}"] yields
    no result. *)
#[local] Instance further_libraries : Libraries := {|
  JSONPath := string;
  ExcludePath := string;
  Time := string;
  Theme := string;
  DiffResult := string;
  json_Marshal_obj := fun o => Ok (name o);
  json_Marshal := fun d => match d with DScalar s => Ok s | _ => Ok "{}" end;
  json_Unmarshal := fun _ s => Ok (DMap [("name", DScalar s)]);
  FindResults := fun jp d =>
    if String.eqb jp "{.status" then Err "unclosed action"
    else if String.eqb jp "{.missing}" then Ok []
    else Ok [[d]];
  RemovePath := fun d p => if String.eqb p "" then Err "empty path" else Ok d;
  show_path := fun p => p;
  JSONToYAML := fun s => Ok s;
  format_RFC3339 := fun t => t;
  cdiff_Diff := fun a b => a +:+ "|" +:+ b;
  UnifiedWithGooKitColor := fun d a b _ t => a +:+ b +:+ d +:+ t
|}.

Definition options_with (jp : option string) (excl : list string) : Options :=
  {| ContextLines := 3; CreateColorTheme := "green"; UpdateColorTheme := "yellow";
     DeleteColorTheme := "red"; compiledJSONPath := jp; parsedExcludePaths := excl |}.

Definition w0 : World := mkWorld [] "".

(** X9 (witness). *)
Lemma preprocess_error_messages_witness :
  preprocess (options_with None [""]) (Some nginx_v1) w0
  = (w0, Err "failed to apply exclude expression : empty path") /\
  starts_with_one_of preprocess_error_prefixes
    "failed to apply exclude expression : empty path".
Proof.
  assert (H : preprocess (options_with None [""]) (Some nginx_v1) w0
              = (w0, Err "failed to apply exclude expression : empty path")) by reflexivity.
  split; [exact H|].
  exact (DiffProps.preprocess_error_messages _ _ _ _ _ H).
Defined.

(** X11 (witness): the previous object fails, then the current one. *)
Lemma PrintDiff_errors_witness :
  PrintDiff (options_with None [""]) (Some nginx_v1) (Some nginx_v2) "t0" "t1" w0
  = (w0, Err ("failed to process previous object: "
              +:+ "failed to apply exclude expression : empty path")) /\
  (PrintDiff (options_with None [""]) None (Some nginx_v2) "t0" "t1" w0
   = (w0, Err ("failed to process current object: "
               +:+ "failed to apply exclude expression : empty path")) /\
   stdout w0 = stdout w0).
Proof.
  assert (H1 : preprocess (options_with None [""]) (Some nginx_v1) w0
               = (w0, Err "failed to apply exclude expression : empty path")) by reflexivity.
  assert (H2 : preprocess (options_with None [""]) None w0 = (w0, Ok "")) by reflexivity.
  assert (H3 : preprocess (options_with None [""]) (Some nginx_v2) w0
               = (w0, Err "failed to apply exclude expression : empty path")) by reflexivity.
  split.
  - exact (proj1 (DiffProps.PrintDiff_errors (options_with None [""]) (Some nginx_v1)
                    (Some nginx_v2) "t0" "t1" w0 w0 _) H1).
  - exact (proj2 (DiffProps.PrintDiff_errors (options_with None [""]) None
                    (Some nginx_v2) "t0" "t1" w0 w0 _) w0 "" H2 H3).
Defined.

(** X12 (witness). *)
Lemma preprocess_plain_witness :
  preprocess (options_with None []) (Some nginx_v1) w0
  = check "failed to encode object as YAML: " (JSONToYAML "nginx") w0 /\
  preprocess (options_with None []) (Some nginx_v1) w0 = (w0, Ok "nginx").
Proof.
  assert (H : preprocess (options_with None []) (Some nginx_v1) w0
              = check "failed to encode object as YAML: " (JSONToYAML "nginx") w0)
    by (apply (DiffProps.preprocess_plain _ _ _ _ (DMap [("name", DScalar "nginx")]));
        reflexivity).
  split; [exact H|]. rewrite H. reflexivity.
Defined.

(** X13 (witness): the JSON path ["{.metadata}"] selects the whole
    document, which encodes to ["{}"]. *)
Lemma preprocess_selected_witness :
  preprocess (options_with (Some "{.metadata}") []) (Some nginx_v1) w0
  = check "failed to encode object as YAML: " (JSONToYAML "{}") w0 /\
  preprocess (options_with (Some "{.metadata}") []) (Some nginx_v1) w0 = (w0, Ok "{}").
Proof.
  assert (H : preprocess (options_with (Some "{.metadata}") []) (Some nginx_v1) w0
              = check "failed to encode object as YAML: " (JSONToYAML "{}") w0)
    by (apply (@DiffProps.preprocess_selected further_libraries
                 (options_with (Some "{.metadata}") []) nginx_v1 w0 "nginx" (DMap [("name", DScalar "nginx")])
                 "{.metadata}" (DMap [("name", DScalar "nginx")]) [] []
                 "{}" (DMap [("name", DScalar "{}")])); reflexivity).
  split; [exact H|]. rewrite H. reflexivity.
Defined.

(** X14 (witness). *)
Lemma preprocess_selector_no_match_witness :
  preprocess (options_with (Some "{.missing}") []) (Some nginx_v1) w0
  = preprocess (without_selector (options_with (Some "{.missing}") [])) (Some nginx_v1) w0 /\
  preprocess (options_with (Some "{.missing}") []) (Some nginx_v1) w0 = (w0, Ok "nginx").
Proof.
  assert (H : preprocess (options_with (Some "{.missing}") []) (Some nginx_v1) w0
              = preprocess (without_selector (options_with (Some "{.missing}") []))
                  (Some nginx_v1) w0).
  { apply (@DiffProps.preprocess_selector_no_match further_libraries
             (options_with (Some "{.missing}") []) nginx_v1 w0 w0
             ("nginx", DMap [("name", DScalar "nginx")]) "{.missing}" []);
      [reflexivity|reflexivity|left; reflexivity]. }
  split; [exact H|]. reflexivity.
Defined.

End FurtherSamples.

Module MapOrderSamples.
Import Diff.





Definition w0 : World := mkWorld [] "".




End MapOrderSamples.

Module MainSamples.
Import Diff Main.

Definition dq : string := String "034"%char EmptyString.

(** A cluster that knows pods (also as [po]) and the cluster-wide nodes,
    and rejects the label selector ["app in ("]. *)
#[local] Instance sample_cluster : Cluster := {|
  Selector := string;
  Config := string;
  Mapper := unit;
  GVK := string;
  GVResource := string;
  Getenv_KUBECONFIG := "/home/user/.kube/config";
  ToLower := fun s => s;
  labels_Parse := fun s => if String.eqb s "app in (" then Err "unexpected EOF" else Ok s;
  BuildConfigFromFlags := fun p => Ok p;
  kubernetes_NewForConfig := fun _ => Ok tt;
  getRESTMapper := fun _ => Ok tt;
  dynamic_NewForConfig := fun _ => Ok tt;
  KindFor := fun _ k =>
    if String.eqb k "pods" || String.eqb k "po" then Ok "/v1, Kind=Pod"
    else if String.eqb k "nodes" then Ok "/v1, Kind=Node"
    else Err ("no matches for /, Resource=" +:+ k);
  gvk_String := fun g => g;
  gvk_Kind := fun g => g;
  RESTMapping := fun _ g =>
    if String.eqb g "/v1, Kind=Node" then Ok ("nodes", false) else Ok ("pods", true);
  Watch := fun _ _ => Ok tt;
  go_quote := fun s => dq +:+ s +:+ dq
|}.

Definition with_labels (l : string) : options :=
  {| kubeconfig := ""; opt_namespace := "web"; labels := l;
     hideManagedFields := true; verbose := false |}.

(** X16 (witness). *)
Lemma main_argument_errors_witness :
  main (with_labels "app in (") [] = Err "No resource kind and name given." /\
  main (with_labels "app in (") ["pods"] = Err ("Invalid label selector: " +:+ "unexpected EOF") /\
  main (with_labels "app=web") ["pods"; "nginx"]
  = Err "Cannot specify both resource names and a label selector at the same time.".
Proof.
  split; [exact (proj1 (@MainProps.main_argument_errors sample_cluster (with_labels "app in (")))|].
  split.
  - apply (proj1 (proj2 (@MainProps.main_argument_errors sample_cluster (with_labels "app in (")))); 
      [discriminate|reflexivity].
  - apply (proj2 (proj2 (@MainProps.main_argument_errors sample_cluster (with_labels "app=web")))
             "pods" "nginx" [] "app=web"); [discriminate|reflexivity].
Defined.

(** X17 (witness). *)
Lemma main_ignores_resource_names_witness :
  labels (with_labels "") = "" /\
  main (with_labels "") ["pods"; "nginx"] = main (with_labels "") ["pods"] /\
  main (with_labels "") ["pods"]
  = Ok [mkWatchStarted ("pods" : GVResource) (Some "web") "" true].
Proof.
  split; [reflexivity|]. split.
  - apply (@MainProps.main_ignores_resource_names sample_cluster). reflexivity.
  - vm_compute. reflexivity.
Defined.

(** X18 (witness): pods are watched in the namespace, nodes in all of
    them. *)
Lemma main_watch_settings_witness :
  exists ws, main (with_labels "app=web") ["pods,nodes"] = Ok ws /\
    length ws = 2 /\
    exists mapper, Forall (fun w => exists gvk namespaced,
      RESTMapping mapper gvk = Ok (ws_resource w, namespaced) /\
      ws_namespace w = (if namespaced then Some "web" else None) /\
      ws_labelSelector w = "app=web" /\
      ws_hideManagedFields w = true) ws.
Proof.
  destruct (main (with_labels "app=web") ["pods,nodes"]) as [ws|e] eqn:E;
    [|vm_compute in E; discriminate].
  exists ws. split; [reflexivity|]. split.
  - vm_compute in E. injection E as <-. reflexivity.
  - exact (@MainProps.main_watch_settings sample_cluster (with_labels "app=web") ["pods,nodes"] ws E).
Defined.

(** X19 (witness): [pods], [po] and [nodes] name two kinds. *)
Lemma main_one_watch_per_kind_witness :
  exists ws, main (with_labels "") ["pods,po,nodes"] = Ok ws /\ length ws = 2 /\
  exists arg0 names mapper (kinds : gmap string GVK),
    ["pods,po,nodes"] = arg0 :: names /\
    length ws = size kinds /\
    forall s, is_Some (kinds !! s) <->
      exists k gvk, In k (split_comma (ToLower arg0) EmptyString) /\
        KindFor mapper k = Ok gvk /\ gvk_String gvk = s.
Proof.
  destruct (main (with_labels "") ["pods,po,nodes"]) as [ws|e] eqn:E;
    [|vm_compute in E; discriminate].
  exists ws. split; [reflexivity|]. split.
  - vm_compute in E. injection E as <-. reflexivity.
  - exact (@MainProps.main_one_watch_per_kind sample_cluster (with_labels "") ["pods,po,nodes"] ws E).
Defined.

(** X20 (witness): [pods] and [po] resolve, [deploy] does not. *)
Lemma resolve_kinds_all_known_witness :
  (exists m, resolve_kinds tt ["pods"; "po"] ∅ = Ok m) /\
  resolve_kinds tt ["pods"; "deploy"] ∅
  = Err ("Unknown resource kind " +:+ dq +:+ "deploy" +:+ dq +:+ ": "
         +:+ "no matches for /, Resource=deploy") /\
  exists k e', In k ["pods"; "deploy"] /\ KindFor tt k = Err e' /\
    "Unknown resource kind " +:+ dq +:+ "deploy" +:+ dq +:+ ": "
      +:+ "no matches for /, Resource=deploy"
    = "Unknown resource kind " +:+ go_quote k +:+ ": " +:+ e'.
Proof.
  split.
  - apply (proj1 (@MainProps.resolve_kinds_all_known sample_cluster tt ["pods"; "po"] ∅)).
    repeat constructor; eexists; reflexivity.
  - split; [reflexivity|].
    apply (proj2 (@MainProps.resolve_kinds_all_known sample_cluster tt ["pods"; "deploy"] ∅)).
    reflexivity.
Defined.

End MainSamples.
